(** * simplegrep: a shallow embedding of examples/simplegrep.c

    The program loads a file into a byte buffer and runs five substring
    scanning strategies over it, each of which reports its matches through
    the callback [eventHandler], which bumps the global counter [gsHint].

    The development below models
    - the C integer types involved ([int], [char], [size_t]) as [Z] with
      their wrap-around written out;
    - the global [gsHint] as a field of an explicit machine state threaded
      through every function;
    - [for] loops with a well-founded loop combinator that checks the loop
      condition before every iteration, exactly as C does;
    - reads outside the input buffer and writes outside the local array
      [tmpHint] as traps (the C program has undefined behaviour there). *)

From Stdlib Require Import ZArith List Lia Bool Zwf Wellfounded.
From Stdlib Require Import Strings.Byte Strings.String.
Import ListNotations.

Local Open Scope Z_scope.

(** ** Machine integers *)

Module MachInt.

(** [int] is 32 bits wide, two's complement. *)
Definition INT_MIN : Z := - 2 ^ 31.
Definition INT_MAX : Z := 2 ^ 31 - 1.
Definition UINT_MAX : Z := 2 ^ 32 - 1.

(** Conversion of a mathematical integer to [int]. *)
Definition int_wrap (z : Z) : Z := (z + 2 ^ 31) mod 2 ^ 32 - 2 ^ 31.

(** [size_t] is 64 bits wide (LP64). *)
Definition SIZE_MOD : Z := 2 ^ 64.
Definition sz_wrap (z : Z) : Z := z mod SIZE_MOD.
Definition sz_add (a b : Z) : Z := sz_wrap (a + b).
Definition sz_sub (a b : Z) : Z := sz_wrap (a - b).

(** Conversion of a mathematical integer to [char].  Whether plain [char]
    is signed is implementation-defined, so the signedness is an argument. *)
Definition char_wrap (char_signed : bool) (z : Z) : Z :=
  if char_signed then (z + 128) mod 256 - 128 else z mod 256.

End MachInt.
Import MachInt.

(** ** Machine state *)

(** The arguments of one invocation of the match callback. The context
    pointer always points to the pattern and is not recorded. *)
Record MatchEvent : Type := mkEvent {
  ev_id : Z;
  ev_from : Z;
  ev_to : Z;
  ev_flags : Z
}.

(** [gsHint] is the global of the C program. [sink_log] is ghost state: the
    invocations of [eventHandler] so far, oldest first. *)
Record State : Type := mkState {
  gsHint : Z;
  sink_log : list MatchEvent
}.

Definition set_gsHint (v : Z) (st : State) : State :=
  {| gsHint := v; sink_log := sink_log st |}.

(** ** Control flow *)

Inductive fault : Type :=
| BufferOverread (idx : Z)     (* inputData[idx] with idx outside the buffer *)
| LaneOutOfBounds (idx : Z).   (* tmpHint[idx] with idx outside [0, 16) *)

(** Outcome of a loop body or of a loop. *)
Inductive outcome (S : Type) : Type :=
| Normal (s : S)               (* reached the end of the statement *)
| Broke (s : S)                (* executed [break] *)
| Trap (f : fault) (s : S).    (* undefined behaviour *)
Arguments Normal {S} s.
Arguments Broke {S} s.
Arguments Trap {S} f s.

(** Outcome of a call to one of the scan functions. *)
Inductive fresult : Type :=
| Returned (ret : Z) (st : State)
| Crashed (f : fault) (st : State).

Section ForLoop.
Context {S : Type}.
Variable bound : Z.
Variable body : Z -> S -> outcome S.

(** The next index is closer to [bound]. *)
Definition for_lt_next (i : Z) (Hlt : i < bound) : Zwf_up bound (i + 1) i :=
  conj (Z.lt_succ_diag_r i) (proj2 (Z.le_succ_l i bound) Hlt).

(** One unfolding of [for (size_t i = ...; i < bound; i++) body]. *)
Definition for_lt_F (i : Z)
    (rec : forall i', Zwf_up bound i' i -> S -> outcome S)
    (s : S) : outcome S :=
  match Z_lt_dec i bound with
  | left Hlt =>
      match body i s with
      | Normal s' => rec (i + 1) (for_lt_next i Hlt) s'
      | Broke s' => Normal s'
      | Trap f s' => Trap f s'
      end
  | right _ => Normal s
  end.

(** The loop, by well-founded recursion on the distance to [bound]. The
    accessibility proof is guarded so that the loop evaluates. *)
Definition for_lt_wf : well_founded (Zwf_up bound) :=
  Acc_intro_generator 64 (Zwf_up_well_founded bound).

Definition for_lt : Z -> S -> outcome S :=
  Fix for_lt_wf (fun _ => S -> outcome S) for_lt_F.

End ForLoop.

(** ** Byte buffers and C strings *)

(** [inputData\[idx\]]: the buffer is the list of its bytes; an index outside
    it has no value. *)
Definition buf_read (inputData : list byte) (idx : Z) : option byte :=
  if idx <? 0 then None else nth_error inputData (Z.to_nat idx).

(** A C string is modelled by the bytes before its terminating NUL; reading
    at the length of the list reads the terminator. *)
Definition str_read (s : list byte) (j : Z) : byte :=
  nth (Z.to_nat j) s x00.

Fixpoint strlen (s : list byte) : Z :=
  match s with
  | [] => 0
  | c :: s' => if Byte.eqb c x00 then 0 else 1 + strlen s'
  end.

(** ** The match callback *)

(** [gsHint++; return 0;] Overflow of the signed counter is undefined in C;
    the model wraps around as the hardware does. The invocation is appended
    to the ghost log. *)
Definition eventHandler (id from to flags : Z) (ctx : list byte) (st : State)
  : Z * State :=
  (0, {| gsHint := int_wrap (gsHint st + 1);
         sink_log := sink_log st ++ [mkEvent id from to flags] |}).

(** ** rookieScanMethod *)

Definition rookie_inner_body (inputData pattern : list byte) (plen i : Z)
    (j : Z) (st : State) : outcome State :=
  match buf_read inputData (sz_add i j) with
  | None => Trap (BufferOverread (sz_add i j)) st
  | Some c =>
      if negb (Byte.eqb (str_read pattern j) c) then Broke st
      else if j =? sz_sub plen 1
           then Normal (snd (eventHandler 0 0 i 0 pattern st))
           else Normal st
  end.

Definition rookie_outer_body (inputData pattern : list byte) (plen : Z)
    (i : Z) (st : State) : outcome State :=
  for_lt plen (rookie_inner_body inputData pattern plen i) 0 st.

Definition rookieScanMethod (inputData : list byte) (length : Z)
    (pattern : list byte) (st : State) : fresult :=
  let plen := strlen pattern in
  let st := set_gsHint 0 st in
  match for_lt (sz_sub length (sz_sub plen 1))
               (rookie_outer_body inputData pattern plen) 0 st with
  | Trap f st' => Crashed f st'
  | Normal st' | Broke st' => Returned 0 st'
  end.

(** ** myBMScanMethod *)

(** The locals of [myBMScanMethod]: the lane accumulator [char tmpHint\[16\]]
    and, as ghost state, the indices used by [tmpHint\[j\]++] so far. *)
Record BMLocals : Type := mkBMLocals {
  tmpHint : list Z;
  lane_log : list Z
}.

Fixpoint lane_store (n : nat) (v : Z) (l : list Z) : list Z :=
  match l, n with
  | [], _ => []
  | _ :: t, O => v :: t
  | h :: t, Datatypes.S n' => h :: lane_store n' v t
  end.

(** [tmpHint\[j\]++] *)
Definition lane_incr (char_signed : bool) (j : Z) (fr : BMLocals)
  : outcome BMLocals :=
  let log := lane_log fr ++ [j] in
  if (0 <=? j) && (j <? 16) then
    let v := char_wrap char_signed (nth (Z.to_nat j) (tmpHint fr) 0 + 1) in
    Normal {| tmpHint := lane_store (Z.to_nat j) v (tmpHint fr);
              lane_log := log |}
  else Trap (LaneOutOfBounds j) {| tmpHint := tmpHint fr; lane_log := log |}.

Definition myBM_inner_body (char_signed : bool)
    (inputData pattern : list byte) (plen i : Z)
    (j : Z) (fr : BMLocals) : outcome BMLocals :=
  match buf_read inputData (sz_add i j) with
  | None => Trap (BufferOverread (sz_add i j)) fr
  | Some c =>
      if negb (Byte.eqb (str_read pattern j) c) then Broke fr
      else if j =? sz_sub plen 1 then lane_incr char_signed j fr
           else Normal fr
  end.

Definition myBM_outer_body (char_signed : bool)
    (inputData pattern : list byte) (plen : Z)
    (i : Z) (fr : BMLocals) : outcome BMLocals :=
  for_lt plen (myBM_inner_body char_signed inputData pattern plen i) 0 fr.

(** The scanning loop nest of [myBMScanMethod], from the zeroed array. *)
Definition myBM_scan (char_signed : bool) (inputData : list byte)
    (length : Z) (pattern : list byte) : outcome BMLocals :=
  let plen := strlen pattern in
  for_lt (sz_sub length (sz_sub plen 1))
         (myBM_outer_body char_signed inputData pattern plen) 0
         {| tmpHint := repeat 0 16; lane_log := [] |}.

(** [gsHint += tmpHint\[j\]] *)
Definition myBM_reduce_body (lanes : list Z) (j : Z) (st : State)
  : outcome State :=
  Normal (set_gsHint (int_wrap (gsHint st + nth (Z.to_nat j) lanes 0)) st).

Definition myBMScanMethod (char_signed : bool) (inputData : list byte)
    (length : Z) (pattern : list byte) (st : State) : fresult :=
  match myBM_scan char_signed inputData length pattern with
  | Trap f _ => Crashed f st
  | Normal fr | Broke fr =>
      match for_lt 16 (myBM_reduce_body (tmpHint fr)) 0 st with
      | Trap f st' => Crashed f st'
      | Normal st' | Broke st' => Returned 0 st'
      end
  end.

(** ** memScanMethod *)

Definition mem_body (inputData pattern : list byte) (i : Z) (st : State)
  : outcome State :=
  match buf_read inputData i with
  | None => Trap (BufferOverread i) st
  | Some c =>
      if Byte.eqb (str_read pattern 0) c
      then Normal (snd (eventHandler 0 0 i 0 pattern st))
      else Normal st
  end.

Definition memScanMethod (inputData : list byte) (length : Z)
    (pattern : list byte) (st : State) : fresult :=
  match for_lt length (mem_body inputData pattern) 0 st with
  | Trap f st' => Crashed f st'
  | Normal st' | Broke st' => Returned 0 st'
  end.

(** ** paraScanMethod *)

Definition paraScanMethod (inputData : list byte) (length : Z)
    (pattern : list byte) (st : State) : fresult :=
  Returned 0 st.

(** ** The harness *)

Definition ScanFun : Type := list byte -> Z -> list byte -> State -> fresult.

Record ScanTestItem : Type := mkItem {
  testName : string;
  testFun : ScanFun
}.

(** One line of the report. The elapsed time is not modelled. *)
Record Report : Type := mkReport {
  rp_name : string;
  rp_status : string;
  rp_hits : Z
}.

Inductive MainResult : Type :=
| Exit (code : Z) (out : list Report)
| Abort (f : fault) (out : list Report).

(** What the file system answers about one file name: [access(F_OK)],
    [access(R_OK)], and the bytes that [fopen]/[fseek]/[ftell]/[malloc]/
    [fread] deliver ([None] when one of them fails). *)
Record FileInfo : Type := mkFile {
  f_exists : bool;
  f_readable : bool;
  f_content : option (list byte)
}.

(** [readInputData], on the outcome of the library calls. *)
Definition readInputData (content : option (list byte))
  : option (list byte * Z) :=
  match content with
  | None => None
  | Some data =>
      let dataLen := Z.of_nat (List.length data) in
      if dataLen >? UINT_MAX
      then Some (firstn (Z.to_nat UINT_MAX) data, UINT_MAX)
      else if dataLen =? 0 then None
      else Some (data, dataLen)
  end.

(** The body of the [for] loop of [main], over the remaining entries of the
    table. [ret] is the local of [main]; [out] is what was printed so far. *)
Fixpoint run_tests (HS_SUCCESS : Z) (items : list ScanTestItem) (ret : Z)
    (inputData : list byte) (length : Z) (pattern : list byte)
    (st : State) (out : list Report) : MainResult * State :=
  match items with
  | [] => (Exit ret out, st)
  | pTest :: rest =>
      let st0 := set_gsHint 0 st in
      match testFun pTest inputData length pattern st0 with
      | Crashed f st1 => (Abort f out, st1)
      | Returned _ st1 =>
          let line := {| rp_name := testName pTest;
                         rp_status := if ret =? HS_SUCCESS
                                      then "DONE"%string else "ERROR"%string;
                         rp_hits := gsHint st1 |} in
          run_tests HS_SUCCESS rest ret inputData length pattern st1
                    (out ++ [line])
      end
  end.

(** The external matching engine and the platform. Nothing of Hyperscan is
    part of this program; it is a parameter of the model:
    - [hs_compile pattern] is the database, or [None] when compilation does
      not return [HS_SUCCESS];
    - [hs_alloc_scratch db] tells whether the scratch allocation succeeds;
    - [hs_scan db data length] is the sequence of callback invocations the
      scan makes while the callback keeps returning 0, and its return code. *)
Section Platform.
Variable HS_SUCCESS : Z.
Variable hs_database : Type.
Variable hs_compile : list byte -> option hs_database.
Variable hs_alloc_scratch : hs_database -> bool.
Variable hs_scan : hs_database -> list byte -> Z -> list MatchEvent * Z.
Variable char_signed : bool.
Variable fs : list byte -> FileInfo.

Definition deliver (pattern : list byte) (st : State) (e : MatchEvent)
  : State :=
  snd (eventHandler (ev_id e) (ev_from e) (ev_to e) (ev_flags e) pattern st).

Definition hyperScanMethod (inputData : list byte) (length : Z)
    (pattern : list byte) (st : State) : fresult :=
  match hs_compile pattern with
  | None => Returned (-1) st
  | Some database =>
      if negb (hs_alloc_scratch database)
      then Returned 0 st       (* goto l_freedb, with ret still 0 *)
      else
        let '(evs, ret) := hs_scan database inputData length in
        Returned ret (fold_left (deliver pattern) evs st)
  end.

Definition testFuncArr : list ScanTestItem :=
  [ mkItem "allMemScan" memScanMethod;
    mkItem "hyperScan" hyperScanMethod;
    mkItem "rookieScan" rookieScanMethod;
    mkItem "myBMScanMethod" (myBMScanMethod char_signed);
    mkItem "myScan" paraScanMethod ].

(** [main]; [st] is the state of the globals at program start. *)
Definition main (argv : list (list byte)) (st : State) : MainResult :=
  match argv with
  | [_; pattern; inputFN] =>
      if negb (f_exists (fs inputFN)) then Exit (-1) []
      else if negb (f_readable (fs inputFN)) then Exit (-1) []
      else
        match readInputData (f_content (fs inputFN)) with
        | None => Exit (-1) []
        | Some (inputData, length) =>
            fst (run_tests HS_SUCCESS testFuncArr 0 inputData length
                           pattern st [])
        end
  | _ => Exit (-1) []
  end.

End Platform.

(** ** Vocabulary of the statements *)

(** The state an outcome carries satisfies [P], however the statement
    ended. *)
Definition holds_after {S : Type} (P : S -> Prop) (o : outcome S) : Prop :=
  match o with
  | Normal s | Broke s | Trap _ s => P s
  end.

(** The byte comparison both brute-force scans make for pattern index [k]
    at start offset [i]. *)
Definition bytes_agree (inputData pattern : list byte) (i k : nat) : bool :=
  Byte.eqb (nth k pattern x00) (nth (i + k) inputData x00).

(** Every logged lane access used, as index, the last index of the
    pattern. *)
Definition lanes_at_last (plen : Z) (fr : BMLocals) : Prop :=
  Forall (fun j => j = sz_sub plen 1 /\ 0 <= j < plen) (lane_log fr).

(** The state after the callback was invoked the way [rookieScanMethod] and
    [memScanMethod] invoke it, once for every index of a list, in order. *)
Definition report_at (pattern : list byte) (i : nat) (st : State) : State :=
  snd (eventHandler 0 0 (Z.of_nat i) 0 pattern st).

Definition report_all (pattern : list byte) (positions : list nat)
    (st : State) : State :=
  fold_left (fun s i => report_at pattern i s) positions st.

(** The event those invocations hand to the callback. *)
Definition event_at (i : nat) : MatchEvent := mkEvent 0 0 (Z.of_nat i) 0.

(** [slice l i n] is [l\[i .. i+n)]. *)
Definition slice (l : list byte) (i n : nat) : list byte :=
  firstn n (skipn i l).

Fixpoint bytes_eqb (a b : list byte) : bool :=
  match a, b with
  | [], [] => true
  | x :: a', y :: b' => Byte.eqb x y && bytes_eqb a' b'
  | _, _ => false
  end.

(** The pattern, as a C string of [strlen pattern] bytes, occurs in the
    buffer at start offset [i]. *)
Definition occurs_at (inputData pattern : list byte) (i : nat) : Prop :=
  slice inputData i (Z.to_nat (strlen pattern)) =
  slice pattern 0 (Z.to_nat (strlen pattern)).

Definition occurs_atb (inputData pattern : list byte) (i : nat) : bool :=
  bytes_eqb (slice inputData i (Z.to_nat (strlen pattern)))
            (slice pattern 0 (Z.to_nat (strlen pattern))).

(** The start offsets the brute-force scan visits, and those at which the
    pattern occurs. *)
Definition start_offsets (inputData pattern : list byte) : list nat :=
  seq 0 (List.length inputData - Z.to_nat (strlen pattern) + 1).

Definition occurrences (inputData pattern : list byte) : list nat :=
  filter (occurs_atb inputData pattern) (start_offsets inputData pattern).

(** The buffer holds the first byte of the pattern at position [i]. *)
Definition first_byte_at (inputData pattern : list byte) (i : nat) : bool :=
  Byte.eqb (str_read pattern 0) (nth i inputData x00).

Definition first_byte_positions (inputData pattern : list byte) : list nat :=
  filter (first_byte_at inputData pattern) (seq 0 (List.length inputData)).

(** The arguments with which [main] calls the scan functions: [length] is the
    size of the buffer and fits [unsigned int]. *)
Definition buffer_of (inputData : list byte) (length : Z) : Prop :=
  length = Z.of_nat (List.length inputData) /\ length <= UINT_MAX.

(** The state a call leaves behind, however it ends. *)
Definition final_state (r : fresult) : State :=
  match r with
  | Returned _ st | Crashed _ st => st
  end.

(** The globals at program start: [static int gsHint = 0]. *)
Definition initial_state : State := mkState 0 [].

(** Two states with the same hit counter, and outcomes that agree up to
    such states. *)
Definition same_counter (s1 s2 : State) : Prop := gsHint s1 = gsHint s2.

Definition outcome_agree {S : Type} (R : S -> S -> Prop) (o1 o2 : outcome S)
  : Prop :=
  match o1, o2 with
  | Normal a, Normal b => R a b
  | Broke a, Broke b => R a b
  | Trap f a, Trap g b => f = g /\ R a b
  | _, _ => False
  end.

Definition fresult_agree (r1 r2 : fresult) : Prop :=
  match r1, r2 with
  | Returned a s1, Returned b s2 => a = b /\ same_counter s1 s2
  | Crashed f s1, Crashed g s2 => f = g /\ same_counter s1 s2
  | _, _ => False
  end.

(** A scan function whose result and final counter depend on the state it
    is called in only through the counter. *)
Definition counter_local (f : ScanFun) : Prop :=
  forall inputData length pattern st1 st2,
    same_counter st1 st2 ->
    fresult_agree (f inputData length pattern st1)
                  (f inputData length pattern st2).

(** The counter equals the number of callback invocations logged. *)
Definition counts_own_events (st : State) : Prop :=
  gsHint st = int_wrap (Z.of_nat (List.length (sink_log st))).

(** The run of one table entry on its own, from the initial state. *)
Definition alone (item : ScanTestItem) (inputData : list byte) (length : Z)
    (pattern : list byte) : fresult :=
  testFun item inputData length pattern initial_state.

(** The report line of an entry that ran on its own, under a harness whose
    local [ret] has the given value. *)
Definition line_alone (HS_SUCCESS ret : Z) (inputData : list byte) (length : Z)
    (pattern : list byte) (item : ScanTestItem) : Report :=
  {| rp_name := testName item;
     rp_status := if ret =? HS_SUCCESS then "DONE"%string else "ERROR"%string;
     rp_hits := gsHint (final_state (alone item inputData length pattern)) |}.

Definition reports (r : MainResult) : list Report :=
  match r with Exit _ out | Abort _ out => out end.

(** An engine that rejects every pattern, and a file system with one
    readable file. *)
Definition rejecting_compile (pattern : list byte) : option unit := None.
Definition no_scan (db : unit) (inputData : list byte) (length : Z)
  : list MatchEvent * Z := ([], 0).
Definition one_file (data : list byte) (name : list byte) : FileInfo :=
  mkFile true true (Some data).

(** The locals of [myBMScanMethod] after one in-bounds [tmpHint\[p\]++]. *)
Definition bump_lane (char_signed : bool) (p : nat) (fr : BMLocals) : BMLocals :=
  {| tmpHint := lane_store p (char_wrap char_signed (nth p (tmpHint fr) 0 + 1))
                           (tmpHint fr);
     lane_log := lane_log fr ++ [Z.of_nat p] |}.

(** The sum of the lanes [k, k + n). *)
Definition range_sum (lanes : list Z) (k n : nat) : Z :=
  fold_right Z.add 0 (map (fun j => nth j lanes 0) (seq k n)).


(** The events the engine hands to the callback during one call of
    [hyperScanMethod]: none unless the pattern compiles and the scratch
    space is allocated. *)
Definition engine_events {hs_database : Type}
    (hs_compile : list byte -> option hs_database)
    (hs_alloc_scratch : hs_database -> bool)
    (hs_scan : hs_database -> list byte -> Z -> list MatchEvent * Z)
    (inputData : list byte) (length : Z) (pattern : list byte)
  : list MatchEvent :=
  match hs_compile pattern with
  | None => []
  | Some database =>
      if hs_alloc_scratch database
      then fst (hs_scan database inputData length) else []
  end.

(** * Properties *)

(** ** Machine integers *)

Lemma int_wrap_small (z : Z) : INT_MIN <= z <= INT_MAX -> int_wrap z = z.
Proof.
  unfold int_wrap, INT_MIN, INT_MAX. intros H.
  rewrite Z.mod_small; lia.
Qed.

Lemma int_wrap_range (z : Z) : INT_MIN <= int_wrap z <= INT_MAX.
Proof.
  unfold int_wrap, INT_MIN, INT_MAX.
  pose proof (Z.mod_pos_bound (z + 2 ^ 31) (2 ^ 32) ltac:(lia)). lia.
Qed.

Lemma int_wrap_add_l (a b : Z) : int_wrap (int_wrap a + b) = int_wrap (a + b).
Proof.
  unfold int_wrap. f_equal.
  replace ((a + 2 ^ 31) mod 2 ^ 32 - 2 ^ 31 + b + 2 ^ 31)
    with ((a + 2 ^ 31) mod 2 ^ 32 + b) by lia.
  rewrite Zplus_mod_idemp_l. f_equal. lia.
Qed.

Lemma sz_wrap_small (z : Z) : 0 <= z < SIZE_MOD -> sz_wrap z = z.
Proof. intros H. unfold sz_wrap. apply Z.mod_small. exact H. Qed.

Lemma sz_wrap_range (z : Z) : 0 <= sz_wrap z < SIZE_MOD.
Proof. unfold sz_wrap, SIZE_MOD. apply Z.mod_pos_bound. lia. Qed.

(** The loop bound [length - (plen - 1)] when the pattern fits. *)
Lemma scan_bound_fits (length plen : Z) :
  1 <= plen <= length -> length <= UINT_MAX ->
  sz_sub length (sz_sub plen 1) = length - plen + 1.
Proof.
  unfold sz_sub, UINT_MAX. intros H1 H2.
  rewrite (sz_wrap_small (plen - 1)) by (unfold SIZE_MOD; lia).
  rewrite sz_wrap_small by (unfold SIZE_MOD; lia). lia.
Qed.

(** The same bound when the pattern is at least two bytes longer than the
    buffer: the subtraction wraps around. *)
Lemma scan_bound_wraps (length plen : Z) :
  0 <= length -> length + 2 <= plen -> plen <= SIZE_MOD ->
  sz_sub length (sz_sub plen 1) = SIZE_MOD - (plen - 1 - length).
Proof.
  unfold sz_sub. intros H0 H1 H2.
  rewrite (sz_wrap_small (plen - 1)) by lia.
  unfold sz_wrap, SIZE_MOD in *.
  replace (length - (plen - 1)) with ((2 ^ 64 - (plen - 1 - length)) + (-1) * 2 ^ 64) by lia.
  rewrite Z.mod_add by lia. apply Z.mod_small. lia.
Qed.

(** ** Loops *)

Section ForLoopFacts.
Context {S : Type}.
Variable bound : Z.
Variable body : Z -> S -> outcome S.

Lemma for_lt_unfold (i : Z) (s : S) :
  for_lt bound body i s =
  if i <? bound then
    match body i s with
    | Normal s' => for_lt bound body (i + 1) s'
    | Broke s' => Normal s'
    | Trap f s' => Trap f s'
    end
  else Normal s.
Proof.
  unfold for_lt. rewrite Fix_eq.
  - unfold for_lt_F at 1.
    destruct (Z_lt_dec i bound) as [Hlt | Hge]; destruct (Z.ltb_spec i bound);
      try lia; reflexivity.
  - intros x f g Hfg. unfold for_lt_F.
    destruct (Z_lt_dec x bound) as [Hlt | Hge]; [ | reflexivity ].
    rewrite (Hfg (x + 1) (for_lt_next bound x Hlt)). reflexivity.
Qed.

Lemma for_lt_done (i : Z) (s : S) :
  bound <= i -> for_lt bound body i s = Normal s.
Proof.
  intros H. rewrite for_lt_unfold.
  destruct (Z.ltb_spec i bound); [ lia | reflexivity ].
Qed.

(** A loop never ends in [Broke]: [break] leaves the loop normally. *)
Lemma for_lt_not_broke (i : Z) (s s' : S) :
  for_lt bound body i s <> Broke s'.
Proof.
  remember (Z.to_nat (bound - i)) as n eqn:Hn.
  revert i s Hn. induction n as [ | n IH ]; intros i s Hn.
  - rewrite for_lt_done by lia. discriminate.
  - rewrite for_lt_unfold. destruct (Z.ltb_spec i bound); [ | discriminate ].
    destruct (body i s); try discriminate. apply IH. lia.
Qed.

(** Invariants: a property of the state that every iteration preserves,
    however it ends, holds when the loop is left. *)
Lemma for_lt_invariant (P : S -> Prop) (lo : Z) :
  (forall i s, lo <= i < bound -> P s -> holds_after P (body i s)) ->
  forall i s, lo <= i -> P s -> holds_after P (for_lt bound body i s).
Proof.
  intros Hbody i s.
  remember (Z.to_nat (bound - i)) as n eqn:Hn.
  revert i s Hn. induction n as [ | n IH ]; intros i s Hn Hlo HP.
  - rewrite for_lt_done by lia. exact HP.
  - rewrite for_lt_unfold. destruct (Z.ltb_spec i bound); [ | exact HP ].
    specialize (Hbody i s ltac:(lia) HP).
    destruct (body i s) as [s' | s' | f s']; simpl in *; try exact Hbody.
    apply IH; [ lia | lia | exact Hbody ].
Qed.

(** A loop whose body, at every index, either applies an action or does
    nothing performs the actions of the selected indices, in order. *)
Lemma for_lt_filter (hit : nat -> bool) (act : nat -> S -> S) :
  (forall k s, Z.of_nat k < bound ->
     body (Z.of_nat k) s = Normal (if hit k then act k s else s)) ->
  forall n k s, Z.of_nat (k + n) = bound ->
    for_lt bound body (Z.of_nat k) s =
    Normal (fold_left (fun s i => act i s) (filter hit (seq k n)) s).
Proof.
  intros Hbody n. induction n as [ | n IH ]; intros k s Hk.
  - rewrite for_lt_done by lia. reflexivity.
  - rewrite for_lt_unfold. destruct (Z.ltb_spec (Z.of_nat k) bound); [ | lia ].
    rewrite Hbody by assumption.
    replace (Z.of_nat k + 1) with (Z.of_nat (Datatypes.S k)) by lia.
    rewrite IH by lia. cbn [seq filter].
    destruct (hit k); reflexivity.
Qed.

(** A loop whose body tests one condition per index, breaks at the first
    failure and applies an action at the last index when every test
    passed. *)
Lemma for_lt_all (ok : nat -> bool) (act : S -> outcome S) (last : Z) :
  last = bound - 1 ->
  (forall k s, Z.of_nat k < bound ->
     body (Z.of_nat k) s =
     if negb (ok k) then Broke s
     else if Z.of_nat k =? last then act s else Normal s) ->
  (forall s, match act s with Broke _ => False | _ => True end) ->
  forall n k s, Z.of_nat (k + n) = bound ->
    for_lt bound body (Z.of_nat k) s =
    if forallb ok (seq k n) then
      match n with O => Normal s | _ => act s end
    else Normal s.
Proof.
  intros Hlast Hbody Hact n. induction n as [ | n IH ]; intros k s Hk.
  - rewrite for_lt_done by lia. reflexivity.
  - rewrite for_lt_unfold. destruct (Z.ltb_spec (Z.of_nat k) bound); [ | lia ].
    rewrite Hbody by assumption. cbn [seq forallb].
    destruct (ok k); cbn [negb andb]; [ | reflexivity ].
    destruct (Z.eqb_spec (Z.of_nat k) last) as [Heq | Hne].
    + assert (n = O) by lia. subst n. cbn [seq forallb].
      specialize (Hact s). destruct (act s) as [s' | s' | f s'].
      * apply for_lt_done. lia.
      * contradiction.
      * reflexivity.
    + replace (Z.of_nat k + 1) with (Z.of_nat (Datatypes.S k)) by lia.
      rewrite IH by lia. destruct n as [ | n ]; [ lia | reflexivity ].
Qed.

End ForLoopFacts.

Arguments for_lt : simpl never.

(** ** Bytes, slices and C strings *)

Lemma bytes_eqb_eq (a b : list byte) : bytes_eqb a b = true <-> a = b.
Proof.
  revert b. induction a as [ | x a IH ]; intros [ | y b ]; simpl;
    try (split; [ discriminate | discriminate ]); try tauto.
  rewrite andb_true_iff, IH. split.
  - intros [H1 H2]. apply Byte.byte_dec_bl in H1. congruence.
  - intros H. injection H as -> ->. split; [ apply Byte.byte_dec_lb | ]; reflexivity.
Qed.

Lemma occurs_atb_spec (inputData pattern : list byte) (i : nat) :
  occurs_atb inputData pattern i = true <-> occurs_at inputData pattern i.
Proof. apply bytes_eqb_eq. Qed.

Lemma strlen_bounds (s : list byte) : 0 <= strlen s <= Z.of_nat (List.length s).
Proof.
  induction s as [ | c s IH ]; cbn [strlen List.length]; [ lia | ].
  rewrite Nat2Z.inj_succ. destruct (Byte.eqb c x00); lia.
Qed.

Lemma buf_read_in (inputData : list byte) (k : nat) :
  (k < List.length inputData)%nat ->
  buf_read inputData (Z.of_nat k) = Some (nth k inputData x00).
Proof.
  intros H. unfold buf_read.
  destruct (Z.ltb_spec (Z.of_nat k) 0); [ lia | ].
  rewrite Nat2Z.id. apply nth_error_nth'. exact H.
Qed.

Lemma buf_read_out (inputData : list byte) (idx : Z) :
  Z.of_nat (List.length inputData) <= idx -> buf_read inputData idx = None.
Proof.
  intros H. unfold buf_read.
  destruct (Z.ltb_spec idx 0); [ reflexivity | ].
  apply nth_error_None. lia.
Qed.

(** Comparing [n] bytes one by one is comparing two slices. *)
Lemma bytewise_slices (inputData pattern : list byte) (i n : nat) :
  (i + n <= List.length inputData)%nat -> (n <= List.length pattern)%nat ->
  forallb (fun k => Byte.eqb (nth k pattern x00) (nth (i + k) inputData x00))
          (seq 0 n) =
  bytes_eqb (slice inputData i n) (slice pattern 0 n).
Proof.
  intros Hi Hn. apply eq_true_iff_eq.
  rewrite forallb_forall, bytes_eqb_eq. unfold slice. split.
  - intros H. apply nth_ext with (d := x00) (d' := x00).
    + rewrite !length_firstn, !length_skipn. lia.
    + intros k Hk. rewrite length_firstn, length_skipn in Hk.
      rewrite !nth_firstn.
      destruct (Nat.ltb_spec k n); [ | lia ].
      rewrite !nth_skipn. symmetry. apply Byte.byte_dec_bl.
      apply (H k). apply in_seq. lia.
  - intros H k Hk. apply in_seq in Hk.
    apply Byte.byte_dec_lb.
    assert (E : nth k (firstn n (skipn i inputData)) x00 =
                nth k (firstn n (skipn 0 pattern)) x00) by (rewrite H; reflexivity).
    rewrite !nth_firstn in E.
    destruct (Nat.ltb_spec k n); [ | lia ].
    rewrite !nth_skipn in E. simpl in E. symmetry. exact E.
Qed.

(** ** The callback *)

Lemma report_all_log (pattern : list byte) (positions : list nat) (st : State) :
  sink_log (report_all pattern positions st) =
  sink_log st ++ map event_at positions.
Proof.
  unfold report_all. revert st.
  induction positions as [ | i ps IH ]; intros st; simpl.
  - symmetry. apply app_nil_r.
  - rewrite IH. simpl. rewrite <- app_assoc. reflexivity.
Qed.

Lemma report_all_gsHint (pattern : list byte) (positions : list nat) (st : State) :
  INT_MIN <= gsHint st <= INT_MAX ->
  gsHint (report_all pattern positions st) =
  int_wrap (gsHint st + Z.of_nat (List.length positions)).
Proof.
  unfold report_all. revert st.
  induction positions as [ | i ps IH ]; intros st Hr.
  - simpl. rewrite Z.add_0_r. symmetry. apply int_wrap_small. exact Hr.
  - cbn [fold_left]. rewrite IH by (simpl; apply int_wrap_range).
    simpl gsHint. rewrite int_wrap_add_l. f_equal.
    change (List.length (i :: ps)) with (Datatypes.S (List.length ps)). lia.
Qed.

(** ** memScanMethod *)

Lemma mem_body_in (inputData pattern : list byte) (k : nat) (st : State) :
  (k < List.length inputData)%nat ->
  mem_body inputData pattern (Z.of_nat k) st =
  Normal (if first_byte_at inputData pattern k
          then report_at pattern k st else st).
Proof.
  intros H. unfold mem_body. rewrite buf_read_in by exact H.
  unfold first_byte_at, report_at.
  destruct (Byte.eqb (str_read pattern 0) (nth k inputData x00)); reflexivity.
Qed.

Lemma memScanMethod_spec (inputData : list byte) (length : Z)
    (pattern : list byte) (st : State) :
  length = Z.of_nat (List.length inputData) ->
  memScanMethod inputData length pattern st =
  Returned 0 (report_all pattern (first_byte_positions inputData pattern) st).
Proof.
  intros HL. unfold memScanMethod.
  change 0 with (Z.of_nat 0) at 1.
  rewrite (for_lt_filter length (mem_body inputData pattern)
             (first_byte_at inputData pattern) (report_at pattern))
    with (n := List.length inputData).
  - reflexivity.
  - intros k s Hk. apply mem_body_in. lia.
  - lia.
Qed.

(** Positions holding a byte, counted over the indices or over the list. *)
Lemma positions_count (p : byte -> bool) (l : list byte) (k : nat) :
  List.length (filter (fun i => p (nth (i - k) l x00)) (seq k (List.length l))) =
  List.length (filter p l).
Proof.
  revert k. induction l as [ | a l IH ]; intros k; [ reflexivity | ].
  cbn [List.length seq filter]. rewrite Nat.sub_diag.
  change (nth 0 (a :: l) x00) with a.
  assert (E : filter (fun i => p (nth (i - k) (a :: l) x00)) (seq (Datatypes.S k) (List.length l)) =
              filter (fun i => p (nth (i - Datatypes.S k) l x00)) (seq (Datatypes.S k) (List.length l))).
  { apply filter_ext_in. intros i Hi. apply in_seq in Hi.
    replace (i - k)%nat with (Datatypes.S (i - Datatypes.S k)) by lia. reflexivity. }
  rewrite E. destruct (p a); cbn [List.length]; rewrite IH; reflexivity.
Qed.

Lemma count_occ_filter (c : byte) (l : list byte) :
  count_occ Byte.byte_eq_dec l c = List.length (filter (Byte.eqb c) l).
Proof.
  induction l as [ | a l IH ]; [ reflexivity | ]. cbn [count_occ filter].
  destruct (Byte.byte_eq_dec a c) as [-> | Hne].
  - rewrite (Byte.byte_dec_lb eq_refl). simpl. rewrite IH. reflexivity.
  - destruct (Byte.eqb c a) eqn:E; [ | exact IH ].
    apply Byte.byte_dec_bl in E. congruence.
Qed.

Lemma first_byte_positions_count (inputData pattern : list byte) :
  List.length (first_byte_positions inputData pattern) =
  count_occ Byte.byte_eq_dec inputData (str_read pattern 0).
Proof.
  rewrite count_occ_filter. unfold first_byte_positions, first_byte_at.
  rewrite <- (positions_count (Byte.eqb (str_read pattern 0)) inputData 0).
  f_equal. apply filter_ext. intros i. rewrite Nat.sub_0_r. reflexivity.
Qed.

(** ** rookieScanMethod *)

Lemma sz_add_nat (i k : nat) :
  Z.of_nat (i + k) < SIZE_MOD ->
  sz_add (Z.of_nat i) (Z.of_nat k) = Z.of_nat (i + k).
Proof. intros H. unfold sz_add. rewrite sz_wrap_small; lia. Qed.

Lemma rookie_inner_body_in (inputData pattern : list byte) (plen : Z)
    (i k : nat) (st : State) :
  (i + k < List.length inputData)%nat ->
  Z.of_nat (List.length inputData) <= UINT_MAX ->
  rookie_inner_body inputData pattern plen (Z.of_nat i) (Z.of_nat k) st =
  if negb (bytes_agree inputData pattern i k) then Broke st
  else if Z.of_nat k =? sz_sub plen 1
       then Normal (report_at pattern i st) else Normal st.
Proof.
  intros Hk HL. unfold rookie_inner_body.
  rewrite sz_add_nat by (unfold SIZE_MOD, UINT_MAX in *; lia).
  rewrite buf_read_in by exact Hk.
  unfold str_read. rewrite Nat2Z.id. reflexivity.
Qed.

(** One start offset: the inner loop reports the offset exactly when the
    pattern occurs there. *)
Lemma rookie_outer_body_in (inputData pattern : list byte) (i : nat) (st : State) :
  1 <= strlen pattern ->
  Z.of_nat i + strlen pattern <= Z.of_nat (List.length inputData) ->
  Z.of_nat (List.length inputData) <= UINT_MAX ->
  rookie_outer_body inputData pattern (strlen pattern) (Z.of_nat i) st =
  Normal (if occurs_atb inputData pattern i then report_at pattern i st else st).
Proof.
  intros HP Hi HL. unfold rookie_outer_body.
  pose proof (strlen_bounds pattern) as Hs.
  change 0 with (Z.of_nat 0) at 1.
  rewrite (for_lt_all (strlen pattern)
             (rookie_inner_body inputData pattern (strlen pattern) (Z.of_nat i))
             (bytes_agree inputData pattern i)
             (fun s => Normal (report_at pattern i s))
             (sz_sub (strlen pattern) 1))
    with (n := Z.to_nat (strlen pattern)).
  - unfold occurs_atb. rewrite <- bytewise_slices by lia.
    unfold bytes_agree.
    destruct (forallb _ _); [ | reflexivity ].
    destruct (Z.to_nat (strlen pattern)) eqn:E; [ lia | reflexivity ].
  - unfold sz_sub. apply sz_wrap_small. unfold SIZE_MOD, UINT_MAX in *. lia.
  - intros k s Hk. apply rookie_inner_body_in; lia.
  - intros s. exact I.
  - lia.
Qed.

Lemma rookieScanMethod_spec (inputData : list byte) (length : Z)
    (pattern : list byte) (st : State) :
  buffer_of inputData length ->
  1 <= strlen pattern <= length ->
  rookieScanMethod inputData length pattern st =
  Returned 0 (report_all pattern (occurrences inputData pattern)
                         (set_gsHint 0 st)).
Proof.
  intros [HL Hmax] HP. unfold rookieScanMethod.
  rewrite scan_bound_fits by lia.
  change 0 with (Z.of_nat 0) at 1.
  rewrite (for_lt_filter (length - strlen pattern + 1)
             (rookie_outer_body inputData pattern (strlen pattern))
             (occurs_atb inputData pattern) (report_at pattern))
    with (n := (List.length inputData - Z.to_nat (strlen pattern) + 1)%nat).
  - reflexivity.
  - intros k s Hk. apply rookie_outer_body_in; lia.
  - lia.
Qed.

(** The scan with a pattern at least two bytes longer than the buffer: the
    loop bound wraps around and the scan reads behind the buffer. The first
    read outside the buffer is at the index of the first mismatch between
    buffer and pattern when the pattern starts with the whole buffer, and
    otherwise at the length of the buffer. *)
Lemma rookie_outer_runs_off (inputData pattern : list byte) (plen bound : Z) :
  1 <= plen -> Z.of_nat (List.length inputData) < bound ->
  Z.of_nat (List.length inputData) < SIZE_MOD ->
  forall n i st,
    (i + n = List.length inputData)%nat ->
    exists idx st',
      for_lt bound (rookie_outer_body inputData pattern plen) (Z.of_nat i) st =
      Trap (BufferOverread idx) st' /\
      Z.of_nat (List.length inputData) <= idx.
Proof.
  intros HP Hb Hmax n. induction n as [ | n IH ]; intros i st Hn.
  - rewrite for_lt_unfold. destruct (Z.ltb_spec (Z.of_nat i) bound); [ | lia ].
    unfold rookie_outer_body at 1. rewrite for_lt_unfold.
    destruct (Z.ltb_spec 0 plen); [ | lia ].
    unfold rookie_inner_body at 1.
    assert (E : sz_add (Z.of_nat i) 0 = Z.of_nat i)
      by (unfold sz_add; rewrite sz_wrap_small; lia).
    rewrite E. rewrite buf_read_out by lia.
    exists (Z.of_nat i), st. split; [ reflexivity | lia ].
  - rewrite for_lt_unfold. destruct (Z.ltb_spec (Z.of_nat i) bound); [ | lia ].
    pose proof (for_lt_not_broke plen
                  (rookie_inner_body inputData pattern plen (Z.of_nat i)) 0 st) as Hnb.
    unfold rookie_outer_body at 1.
    destruct (for_lt plen (rookie_inner_body inputData pattern plen (Z.of_nat i)) 0 st)
      as [s' | s' | f s'] eqn:E.
    + replace (Z.of_nat i + 1) with (Z.of_nat (Datatypes.S i)) by lia.
      apply IH. lia.
    + exfalso. apply (Hnb s'). reflexivity.
    + (* the inner loop trapped: it can only have read outside the buffer *)
      assert (Hf : exists idx, f = BufferOverread idx /\
                               Z.of_nat (List.length inputData) <= idx).
      { clear IH Hnb. revert E. generalize 0 at 1. intros j.
        remember (Z.to_nat (plen - j)) as m eqn:Hm. revert j st Hm.
        induction m as [ | m IHm ]; intros j st0 Hm E.
        - rewrite for_lt_done in E by lia. discriminate.
        - rewrite for_lt_unfold in E.
          destruct (Z.ltb_spec j plen); [ | discriminate ].
          unfold rookie_inner_body at 1 in E.
          destruct (buf_read inputData (sz_add (Z.of_nat i) j)) as [c | ] eqn:Er.
          + destruct (negb (Byte.eqb (str_read pattern j) c)); [ discriminate | ].
            destruct (j =? sz_sub plen 1); apply (IHm (j + 1) _ ltac:(lia) E).
          + injection E as <- _. eexists. split; [ reflexivity | ].
            unfold buf_read in Er.
            destruct (Z.ltb_spec (sz_add (Z.of_nat i) j) 0) as [Hneg | Hpos].
            * pose proof (sz_wrap_range (Z.of_nat i + j)). unfold sz_add in Hneg. lia.
            * apply nth_error_None in Er. lia. }
      destruct Hf as (idx & -> & Hidx). exists idx, s'. split; [ reflexivity | exact Hidx ].
Qed.

Lemma occurrences_spec (inputData pattern : list byte) (i : nat) :
  In i (occurrences inputData pattern) <->
  (i <= List.length inputData - Z.to_nat (strlen pattern))%nat /\
  occurs_at inputData pattern i.
Proof.
  unfold occurrences, start_offsets.
  rewrite filter_In, in_seq, occurs_atb_spec. intuition lia.
Qed.

Lemma occurrences_NoDup (inputData pattern : list byte) :
  NoDup (occurrences inputData pattern).
Proof. apply NoDup_filter, seq_NoDup. Qed.

(** C5. For a buffer of length L and a pattern of length P with
    1 <= P <= L, [rookieScanMethod] returns 0 after invoking the callback
    once for every start offset i in [0, L - P] at which
    buffer[i .. i+P) = pattern[0 .. P), in increasing order of i and for no
    other offset; occurrences that overlap are all reported. The counter
    ends at the number of these offsets. *)
Theorem rookie_reports_every_occurrence (inputData : list byte) (length : Z)
    (pattern : list byte) (st : State) :
  buffer_of inputData length ->
  1 <= strlen pattern <= length ->
  let st' := report_all pattern (occurrences inputData pattern)
                        (set_gsHint 0 st) in
  rookieScanMethod inputData length pattern st = Returned 0 st' /\
  sink_log st' = sink_log st ++ map event_at (occurrences inputData pattern) /\
  gsHint st' = int_wrap (Z.of_nat (List.length (occurrences inputData pattern))) /\
  NoDup (occurrences inputData pattern) /\
  (forall i, In i (occurrences inputData pattern) <->
             (i <= List.length inputData - Z.to_nat (strlen pattern))%nat /\
             occurs_at inputData pattern i).
Proof.
  intros HB HP st'. subst st'. split; [ | split; [ | split; [ | split ] ] ].
  - apply rookieScanMethod_spec; assumption.
  - rewrite report_all_log. reflexivity.
  - rewrite report_all_gsHint; [ reflexivity | ].
    simpl. unfold INT_MIN, INT_MAX. lia.
  - apply occurrences_NoDup.
  - apply occurrences_spec.
Qed.

(** Searching "aaa" for "aa" yields two match events, at start offsets 0
    and 1. *)
Lemma rookie_reports_every_occurrence_witness :
  buffer_of (list_byte_of_string "aaa") 3 /\
  1 <= strlen (list_byte_of_string "aa") <= 3 /\
  rookieScanMethod (list_byte_of_string "aaa") 3 (list_byte_of_string "aa")
                   initial_state =
  Returned 0 (mkState 2 [event_at 0; event_at 1]).
Proof.
  assert (HB : buffer_of (list_byte_of_string "aaa") 3)
    by (split; [ reflexivity | unfold UINT_MAX; lia ]).
  assert (HP : 1 <= strlen (list_byte_of_string "aa") <= 3)
    by (vm_compute; split; discriminate).
  split; [ exact HB | split; [ exact HP | ] ].
  rewrite (proj1 (rookie_reports_every_occurrence _ _ _ initial_state HB HP)).
  reflexivity.
Defined.

(** C3, as the code has it. Every match event [rookieScanMethod] delivers
    for an occurrence at start offset i carries that start offset i as its
    [to] argument, with [id], [from] and [flags] all 0. *)
Theorem rookie_events_carry_start_offset (inputData : list byte) (length : Z)
    (pattern : list byte) (st : State) :
  buffer_of inputData length ->
  1 <= strlen pattern <= length ->
  exists new,
    sink_log (final_state (rookieScanMethod inputData length pattern st)) =
      sink_log st ++ new /\
    map ev_to new = map Z.of_nat (occurrences inputData pattern) /\
    Forall (fun e => ev_id e = 0 /\ ev_from e = 0 /\ ev_flags e = 0) new.
Proof.
  intros HB HP. rewrite rookieScanMethod_spec by assumption.
  cbn [final_state].
  exists (map event_at (occurrences inputData pattern)).
  split; [ rewrite report_all_log; reflexivity | split ].
  - rewrite map_map. reflexivity.
  - apply Forall_forall. intros e He. apply in_map_iff in He.
    destruct He as (i & <- & _). repeat split.
Qed.

(** Scanning "abababab" for "aba" delivers the offsets 0, 2 and 4. *)
Lemma rookie_events_carry_start_offset_witness :
  buffer_of (list_byte_of_string "abababab") 8 /\
  1 <= strlen (list_byte_of_string "aba") <= 8 /\
  exists new,
    sink_log (final_state (rookieScanMethod (list_byte_of_string "abababab") 8
                             (list_byte_of_string "aba") initial_state)) =
      sink_log initial_state ++ new /\
    map ev_to new =
      map Z.of_nat (occurrences (list_byte_of_string "abababab")
                                (list_byte_of_string "aba")) /\
    Forall (fun e => ev_id e = 0 /\ ev_from e = 0 /\ ev_flags e = 0) new.
Proof.
  assert (HB : buffer_of (list_byte_of_string "abababab") 8)
    by (split; [ reflexivity | unfold UINT_MAX; lia ]).
  assert (HP : 1 <= strlen (list_byte_of_string "aba") <= 8)
    by (vm_compute; split; discriminate).
  split; [ exact HB | split; [ exact HP | ] ].
  exact (rookie_events_carry_start_offset _ _ _ initial_state HB HP).
Defined.

(** C3, as the specification has it, fails: scanning "abababab" for "aba"
    finds the pattern at start offsets 0, 2 and 4, and the events carry
    0, 2 and 4, not the end offsets 2, 4 and 6. *)
Lemma rookie_events_not_end_offsets :
  let st' := final_state (rookieScanMethod (list_byte_of_string "abababab") 8
                            (list_byte_of_string "aba") initial_state) in
  occurrences (list_byte_of_string "abababab") (list_byte_of_string "aba") =
    [0; 2; 4]%nat /\
  map ev_to (sink_log st') = [0; 2; 4] /\
  map ev_to (sink_log st') <> [0 + 3 - 1; 2 + 3 - 1; 4 + 3 - 1].
Proof.
  vm_compute. repeat split; discriminate.
Qed.

(** With a pattern exactly one byte longer than the buffer the loop bound is
    0 and the scan does nothing. *)
Lemma rookie_pattern_one_longer (inputData : list byte) (length : Z)
    (pattern : list byte) (st : State) :
  buffer_of inputData length -> strlen pattern = length + 1 ->
  rookieScanMethod inputData length pattern st = Returned 0 (set_gsHint 0 st).
Proof.
  intros [HL Hmax] HP. unfold rookieScanMethod. rewrite HP.
  replace (sz_sub length (sz_sub (length + 1) 1)) with 0.
  - rewrite for_lt_done by lia. reflexivity.
  - unfold sz_sub. replace (length + 1 - 1) with length by lia.
    rewrite (sz_wrap_small length) by (unfold SIZE_MOD, UINT_MAX in *; lia).
    rewrite Z.sub_diag. reflexivity.
Qed.

(** With a longer pattern the scan runs off the buffer. *)
Lemma rookie_crashes_on_long_pattern (inputData : list byte) (length : Z)
    (pattern : list byte) (st : State) :
  buffer_of inputData length ->
  length + 2 <= strlen pattern < SIZE_MOD ->
  exists idx st',
    rookieScanMethod inputData length pattern st =
      Crashed (BufferOverread idx) st' /\
    length <= idx.
Proof.
  intros [HL Hmax] HP. unfold rookieScanMethod.
  rewrite scan_bound_wraps by lia.
  destruct (rookie_outer_runs_off inputData pattern (strlen pattern)
              (SIZE_MOD - (strlen pattern - 1 - length)))
    with (n := List.length inputData) (i := O) (st := set_gsHint 0 st)
    as (idx & st' & E & Hidx).
  - lia.
  - lia.
  - unfold SIZE_MOD, UINT_MAX in *. lia.
  - reflexivity.
  - change (Z.of_nat 0) with 0 in E. rewrite E.
    exists idx, st'. split; [ reflexivity | lia ].
Qed.

(** C2 fails on the code. Buffer "x" (L = 1), pattern "abc" (P = 3): the
    bound [length - (plen - 1)] wraps around to 2^64 - 1, the outer loop
    runs, compares pattern[0] with inputData[0], and in its second
    iteration reads inputData[1], which is outside the buffer. Both
    brute-force scans do so. *)
Theorem brute_force_overreads_short_buffer :
  buffer_of (list_byte_of_string "x") 1 /\
  strlen (list_byte_of_string "abc") = 3 /\
  sz_sub 1 (sz_sub (strlen (list_byte_of_string "abc")) 1) = 2 ^ 64 - 1 /\
  rookieScanMethod (list_byte_of_string "x") 1 (list_byte_of_string "abc")
                   initial_state =
    Crashed (BufferOverread 1) initial_state /\
  (forall char_signed,
     myBMScanMethod char_signed (list_byte_of_string "x") 1
                    (list_byte_of_string "abc") initial_state =
     Crashed (BufferOverread 1) initial_state).
Proof.
  split; [ split; [ reflexivity | unfold UINT_MAX; lia ] | ].
  split; [ reflexivity | ].
  split; [ reflexivity | split; [ vm_compute; reflexivity | ] ].
  intros [ | ]; vm_compute; reflexivity.
Qed.

(** ** memScanMethod against the specification *)

Lemma first_byte_positions_spec (inputData pattern : list byte) (i : nat) :
  In i (first_byte_positions inputData pattern) <->
  (i < List.length inputData)%nat /\ nth i inputData x00 = hd x00 pattern.
Proof.
  unfold first_byte_positions, first_byte_at, str_read.
  rewrite filter_In, in_seq. change (Z.to_nat 0) with O.
  replace (nth 0 pattern x00) with (hd x00 pattern) by (destruct pattern; reflexivity).
  split.
  - intros [H1 H2]. apply Byte.byte_dec_bl in H2. split; [ lia | congruence ].
  - intros [H1 H2]. split; [ lia | ]. apply Byte.byte_dec_lb. congruence.
Qed.

(** C6. For every buffer of length L and every non-empty pattern,
    [memScanMethod] returns 0 after invoking the callback once for each
    position i in [0, L) with buffer[i] = pattern[0], in increasing order
    and for no other position; nothing but the first byte of the pattern is
    compared. The number of events is the number of occurrences of that byte
    in the buffer, and so is the counter of a run that starts at 0. *)
Theorem memScan_reports_first_byte_positions (inputData : list byte)
    (length : Z) (pattern : list byte) (st : State) :
  buffer_of inputData length ->
  1 <= strlen pattern ->
  let positions := first_byte_positions inputData pattern in
  let st' := report_all pattern positions st in
  memScanMethod inputData length pattern st = Returned 0 st' /\
  sink_log st' = sink_log st ++ map event_at positions /\
  NoDup positions /\
  (forall i, In i positions <->
             (i < List.length inputData)%nat /\
             nth i inputData x00 = hd x00 pattern) /\
  List.length positions =
    count_occ Byte.byte_eq_dec inputData (hd x00 pattern) /\
  (gsHint st = 0 ->
   gsHint st' =
     int_wrap (Z.of_nat (count_occ Byte.byte_eq_dec inputData (hd x00 pattern)))).
Proof.
  intros [HL Hmax] HP positions st'. subst positions st'.
  assert (Hhd : str_read pattern 0 = hd x00 pattern)
    by (destruct pattern; reflexivity).
  split; [ | split; [ | split; [ | split; [ | split ] ] ] ].
  - apply memScanMethod_spec. exact HL.
  - apply report_all_log.
  - apply NoDup_filter, seq_NoDup.
  - apply first_byte_positions_spec.
  - rewrite first_byte_positions_count, Hhd. reflexivity.
  - intros H0. rewrite report_all_gsHint by (rewrite H0; unfold INT_MIN, INT_MAX; lia).
    rewrite H0, first_byte_positions_count, Hhd. reflexivity.
Qed.

(** "the quick brown fox" holds two bytes 'o'. *)
Lemma memScan_reports_first_byte_positions_witness :
  buffer_of (list_byte_of_string "the quick brown fox") 19 /\
  1 <= strlen (list_byte_of_string "ox") /\
  memScanMethod (list_byte_of_string "the quick brown fox") 19
                (list_byte_of_string "ox") initial_state =
  Returned 0 (mkState 2 [event_at 12; event_at 17]).
Proof.
  assert (HB : buffer_of (list_byte_of_string "the quick brown fox") 19)
    by (split; [ reflexivity | unfold UINT_MAX; lia ]).
  assert (HP : 1 <= strlen (list_byte_of_string "ox"))
    by (vm_compute; discriminate).
  split; [ exact HB | split; [ exact HP | ] ].
  rewrite (proj1 (memScan_reports_first_byte_positions _ _ _ initial_state HB HP)).
  reflexivity.
Defined.

(** ** Patterns of one byte *)

Lemma occurrences_single_byte (inputData pattern : list byte) :
  (1 <= List.length inputData)%nat -> strlen pattern = 1 ->
  occurrences inputData pattern = first_byte_positions inputData pattern.
Proof.
  intros HL HP. unfold occurrences, start_offsets, first_byte_positions.
  rewrite HP. change (Z.to_nat 1) with 1%nat.
  replace (List.length inputData - 1 + 1)%nat with (List.length inputData) by lia.
  apply filter_ext_in. intros i Hi. apply in_seq in Hi.
  unfold occurs_atb. rewrite HP. change (Z.to_nat 1) with 1%nat.
  pose proof (strlen_bounds pattern) as Hs.
  rewrite <- bytewise_slices by lia.
  cbn [seq forallb]. rewrite andb_true_r, Nat.add_0_r. reflexivity.
Qed.

(** C7. For every buffer of length >= 1 and every pattern of length 1,
    [memScanMethod] and [rookieScanMethod] deliver the same match events
    and, the former started with the counter at 0 as the harness starts
    it, end with the same hit count; the latter resets the counter itself. *)
Theorem memScan_agrees_with_rookie_on_single_byte (inputData : list byte)
    (length : Z) (pattern : list byte) (st_mem st_rookie : State) :
  buffer_of inputData length ->
  1 <= length ->
  strlen pattern = 1 ->
  exists st_mem' st_rookie' new,
    memScanMethod inputData length pattern st_mem = Returned 0 st_mem' /\
    rookieScanMethod inputData length pattern st_rookie = Returned 0 st_rookie' /\
    sink_log st_mem' = sink_log st_mem ++ new /\
    sink_log st_rookie' = sink_log st_rookie ++ new /\
    (gsHint st_mem = 0 -> gsHint st_mem' = gsHint st_rookie').
Proof.
  intros HB HL HP.
  exists (report_all pattern (first_byte_positions inputData pattern) st_mem),
         (report_all pattern (first_byte_positions inputData pattern)
                     (set_gsHint 0 st_rookie)),
         (map event_at (first_byte_positions inputData pattern)).
  split; [ | split; [ | split; [ | split ] ] ].
  - apply memScanMethod_spec. apply HB.
  - rewrite rookieScanMethod_spec by (assumption || lia).
    rewrite occurrences_single_byte; [ reflexivity | | exact HP ].
    destruct HB as [HB _]. lia.
  - apply report_all_log.
  - rewrite report_all_log. reflexivity.
  - intros H0. rewrite !report_all_gsHint;
      [ rewrite H0; reflexivity
      | simpl; unfold INT_MIN, INT_MAX; lia
      | rewrite H0; unfold INT_MIN, INT_MAX; lia ].
Qed.

Lemma memScan_agrees_with_rookie_on_single_byte_witness :
  exists st_mem' st_rookie' new,
    memScanMethod (list_byte_of_string "the quick brown fox") 19
                  (list_byte_of_string "o") initial_state = Returned 0 st_mem' /\
    rookieScanMethod (list_byte_of_string "the quick brown fox") 19
                     (list_byte_of_string "o") (mkState 7 []) =
      Returned 0 st_rookie' /\
    sink_log st_mem' = sink_log initial_state ++ new /\
    sink_log st_rookie' = sink_log (mkState 7 []) ++ new /\
    (gsHint initial_state = 0 -> gsHint st_mem' = gsHint st_rookie').
Proof.
  apply (memScan_agrees_with_rookie_on_single_byte
           (list_byte_of_string "the quick brown fox") 19
           (list_byte_of_string "o") initial_state (mkState 7 [])).
  - split; [ reflexivity | unfold UINT_MAX; lia ].
  - lia.
  - reflexivity.
Defined.

(** ** The callback against the specification *)

Lemma deliver_gsHint (ctx : list byte) (evs : list MatchEvent) (st : State) :
  INT_MIN <= gsHint st <= INT_MAX ->
  gsHint (fold_left (deliver ctx) evs st) =
  int_wrap (gsHint st + Z.of_nat (List.length evs)).
Proof.
  revert st. induction evs as [ | e evs IH ]; intros st Hr.
  - simpl. rewrite Z.add_0_r. symmetry. apply int_wrap_small. exact Hr.
  - cbn [fold_left]. rewrite IH by (simpl; apply int_wrap_range).
    simpl gsHint. rewrite int_wrap_add_l. f_equal.
    change (List.length (e :: evs)) with (Datatypes.S (List.length evs)). lia.
Qed.

Lemma deliver_same_counter (ctx1 ctx2 : list byte) (evs1 evs2 : list MatchEvent) :
  List.length evs1 = List.length evs2 ->
  forall st1 st2, same_counter st1 st2 ->
    same_counter (fold_left (deliver ctx1) evs1 st1)
                 (fold_left (deliver ctx2) evs2 st2).
Proof.
  revert evs2. induction evs1 as [ | e1 evs1 IH ]; intros [ | e2 evs2 ] Hlen;
    try discriminate; intros st1 st2 H.
  - exact H.
  - cbn [fold_left]. apply IH; [ simpl in Hlen; lia | ].
    unfold same_counter in *. simpl. rewrite H. reflexivity.
Qed.

(** C9. [eventHandler] returns 0 and increments the [int] counter by exactly
    one whatever its arguments are; hence after any two sequences of
    invocations of the same length, started from equal counters, the
    counters are equal, whatever offsets, ids, flags and contexts were
    passed. *)
Theorem eventHandler_counts_invocations :
  (forall id from to flags ctx st,
     fst (eventHandler id from to flags ctx st) = 0 /\
     gsHint (snd (eventHandler id from to flags ctx st)) =
       int_wrap (gsHint st + 1)) /\
  (forall st, INT_MIN <= gsHint st < INT_MAX ->
     forall id from to flags ctx,
       gsHint (snd (eventHandler id from to flags ctx st)) = gsHint st + 1) /\
  (forall ctx1 ctx2 evs1 evs2 st1 st2,
     List.length evs1 = List.length evs2 ->
     gsHint st1 = gsHint st2 ->
     gsHint (fold_left (deliver ctx1) evs1 st1) =
     gsHint (fold_left (deliver ctx2) evs2 st2)).
Proof.
  split; [ | split ].
  - intros. split; reflexivity.
  - intros st Hr id from to flags ctx. simpl.
    apply int_wrap_small. unfold INT_MIN, INT_MAX in *. lia.
  - intros ctx1 ctx2 evs1 evs2 st1 st2 Hlen H.
    apply deliver_same_counter; assumption.
Qed.

(** Two runs of three events each, with different offsets. *)
Lemma eventHandler_counts_invocations_witness :
  gsHint (fold_left (deliver (list_byte_of_string "aba"))
            [mkEvent 0 0 0 0; mkEvent 0 0 2 0; mkEvent 0 0 4 0] initial_state) =
  gsHint (fold_left (deliver (list_byte_of_string "xyz"))
            [mkEvent 7 1 2 3; mkEvent 7 3 4 5; mkEvent 9 5 6 1] initial_state) /\
  gsHint (snd (eventHandler 1 2 3 4 [] initial_state)) = gsHint initial_state + 1.
Proof.
  split.
  - apply (proj2 (proj2 eventHandler_counts_invocations)); reflexivity.
  - apply (proj1 (proj2 eventHandler_counts_invocations)).
    simpl. unfold INT_MIN, INT_MAX. lia.
Defined.

(** ** More on loops: where traps come from, and runs that agree *)

Section ForLoopTraps.
Context {S : Type}.
Variable bound : Z.
Variable body : Z -> S -> outcome S.

(** A loop traps only where an iteration of its body traps. *)
Lemma for_lt_trap_origin (lo : Z) (i : Z) (s : S) (f : fault) (s' : S) :
  lo <= i ->
  for_lt bound body i s = Trap f s' ->
  exists k s0, lo <= k < bound /\ body k s0 = Trap f s'.
Proof.
  remember (Z.to_nat (bound - i)) as n eqn:Hn.
  revert i s Hn. induction n as [ | n IH ]; intros i s Hn Hlo E.
  - rewrite for_lt_done in E by lia. discriminate.
  - rewrite for_lt_unfold in E.
    destruct (Z.ltb_spec i bound); [ | discriminate ].
    destruct (body i s) as [s1 | s1 | f1 s1] eqn:Eb.
    + apply (IH (i + 1) s1); [ lia | lia | exact E ].
    + discriminate.
    + exists i, s. split; [ lia | ]. rewrite Eb. exact E.
Qed.

Variable body' : Z -> S -> outcome S.
Variable R : S -> S -> Prop.

(** Two loops over the same range whose bodies agree up to [R] agree up
    to [R]. *)
Lemma for_lt_agree :
  (forall i s1 s2, R s1 s2 -> outcome_agree R (body i s1) (body' i s2)) ->
  forall i s1 s2, R s1 s2 ->
    outcome_agree R (for_lt bound body i s1) (for_lt bound body' i s2).
Proof.
  intros Hbody i s1 s2.
  remember (Z.to_nat (bound - i)) as n eqn:Hn.
  revert i s1 s2 Hn. induction n as [ | n IH ]; intros i s1 s2 Hn HR.
  - rewrite !for_lt_done by lia. exact HR.
  - rewrite (for_lt_unfold bound body), (for_lt_unfold bound body').
    destruct (Z.ltb_spec i bound); [ | exact HR ].
    specialize (Hbody i s1 s2 HR).
    destruct (body i s1) as [a | a | f a], (body' i s2) as [b | b | g b];
      simpl in Hbody; try contradiction.
    + apply IH; [ lia | exact Hbody ].
    + exact Hbody.
    + exact Hbody.
Qed.

End ForLoopTraps.

(** ** myBMScanMethod: the lane accumulator *)

Lemma myBM_inner_body_lanes (char_signed : bool) (inputData pattern : list byte)
    (plen i j : Z) (fr : BMLocals) :
  0 <= j < plen -> lanes_at_last plen fr ->
  holds_after (lanes_at_last plen)
    (myBM_inner_body char_signed inputData pattern plen i j fr).
Proof.
  intros Hj HP. unfold myBM_inner_body.
  destruct (buf_read inputData (sz_add i j)); [ | exact HP ].
  destruct (negb (Byte.eqb (str_read pattern j) b)); [ exact HP | ].
  destruct (Z.eqb_spec j (sz_sub plen 1)) as [Heq | Hne]; [ | exact HP ].
  unfold lane_incr.
  destruct ((0 <=? j) && (j <? 16)); simpl; unfold lanes_at_last; simpl;
    (apply Forall_app; split;
     [ exact HP
     | apply Forall_cons; [ split; [ exact Heq | lia ] | apply Forall_nil ] ]).
Qed.

Lemma myBM_scan_lanes (char_signed : bool) (inputData : list byte) (length : Z)
    (pattern : list byte) :
  holds_after (lanes_at_last (strlen pattern))
    (myBM_scan char_signed inputData length pattern).
Proof.
  unfold myBM_scan.
  apply for_lt_invariant with (lo := 0); [ | lia | constructor ].
  intros i fr Hi HP. unfold myBM_outer_body.
  apply for_lt_invariant with (lo := 0); [ | lia | exact HP ].
  intros j fr' Hj HP'. apply myBM_inner_body_lanes; assumption.
Qed.

(** A lane trap is raised by an increment at the last index of a pattern
    longer than 16 bytes. *)
Lemma myBM_inner_body_lane_trap (char_signed : bool)
    (inputData pattern : list byte) (plen i j idx : Z) (fr fr' : BMLocals) :
  0 <= j < plen ->
  myBM_inner_body char_signed inputData pattern plen i j fr =
    Trap (LaneOutOfBounds idx) fr' ->
  idx = sz_sub plen 1 /\ 0 <= idx < plen /\ 16 <= idx.
Proof.
  intros Hj. unfold myBM_inner_body.
  destruct (buf_read inputData (sz_add i j)); [ | discriminate ].
  destruct (negb (Byte.eqb (str_read pattern j) b)); [ discriminate | ].
  destruct (Z.eqb_spec j (sz_sub plen 1)) as [Heq | Hne]; [ | discriminate ].
  unfold lane_incr.
  destruct (Z.leb_spec 0 j), (Z.ltb_spec j 16); cbn [andb]; intros E;
    try discriminate; injection E as <- _; repeat split; try assumption; lia.
Qed.

(** The wrappers around the loops, as equations to rewrite with. *)
Lemma myBM_scan_eq (char_signed : bool) (inputData : list byte) (length : Z)
    (pattern : list byte) :
  for_lt (sz_sub length (sz_sub (strlen pattern) 1))
         (myBM_outer_body char_signed inputData pattern (strlen pattern)) 0
         {| tmpHint := repeat 0 16; lane_log := [] |} =
  myBM_scan char_signed inputData length pattern.
Proof. unfold myBM_scan. reflexivity. Qed.

Lemma myBM_outer_body_eq (char_signed : bool) (inputData pattern : list byte)
    (plen i : Z) (fr : BMLocals) :
  for_lt plen (myBM_inner_body char_signed inputData pattern plen i) 0 fr =
  myBM_outer_body char_signed inputData pattern plen i fr.
Proof. unfold myBM_outer_body. reflexivity. Qed.

Lemma myBMScanMethod_eq (char_signed : bool) (inputData : list byte)
    (length : Z) (pattern : list byte) (st : State) :
  match myBM_scan char_signed inputData length pattern with
  | Trap f _ => Crashed f st
  | Normal fr | Broke fr =>
      match for_lt 16 (myBM_reduce_body (tmpHint fr)) 0 st with
      | Trap f st' => Crashed f st'
      | Normal st' | Broke st' => Returned 0 st'
      end
  end = myBMScanMethod char_signed inputData length pattern st.
Proof. unfold myBMScanMethod. reflexivity. Qed.

Lemma myBM_scan_lane_trap (char_signed : bool) (inputData : list byte)
    (length : Z) (pattern : list byte) (idx : Z) (fr : BMLocals) :
  myBM_scan char_signed inputData length pattern = Trap (LaneOutOfBounds idx) fr ->
  idx = sz_sub (strlen pattern) 1 /\ 0 <= idx < strlen pattern /\ 16 <= idx.
Proof.
  intros E. rewrite <- myBM_scan_eq in E.
  destruct (for_lt_trap_origin _ _ 0 0 _ _ _ (Z.le_refl 0) E)
    as (i & fr0 & Hi & E0).
  rewrite <- myBM_outer_body_eq in E0.
  destruct (for_lt_trap_origin _ _ 0 0 _ _ _ (Z.le_refl 0) E0)
    as (j & fr1 & Hj & E1).
  exact (myBM_inner_body_lane_trap _ _ _ _ _ _ _ _ _ Hj E1).
Qed.

Lemma myBM_reduce_no_trap (lanes : list Z) (i : Z) (st : State) (f : fault)
    (st' : State) :
  0 <= i -> for_lt 16 (myBM_reduce_body lanes) i st <> Trap f st'.
Proof.
  intros Hi E. apply for_lt_trap_origin with (lo := 0) in E; [ | exact Hi ].
  destruct E as (k & s0 & _ & E). discriminate.
Qed.

(** C10. Every increment [myBMScanMethod] performs on [tmpHint] uses the
    index plen - 1; such an access is inside the 16 lanes exactly when
    plen <= 16; and when plen <= 16 neither the scanning loops nor the
    function as a whole ever access a lane out of bounds. A lane trap, when
    there is one, is at index plen - 1 >= 16. *)
Theorem myBM_lane_accesses_at_last_index (char_signed : bool)
    (inputData : list byte) (length : Z) (pattern : list byte) :
  strlen pattern < SIZE_MOD ->
  holds_after
    (fun fr => forall j, In j (lane_log fr) ->
                 j = strlen pattern - 1 /\
                 (0 <= j < 16 <-> strlen pattern <= 16))
    (myBM_scan char_signed inputData length pattern) /\
  (forall idx fr,
     myBM_scan char_signed inputData length pattern =
       Trap (LaneOutOfBounds idx) fr ->
     idx = strlen pattern - 1 /\ 16 < strlen pattern) /\
  (strlen pattern <= 16 ->
   forall st idx st',
     myBMScanMethod char_signed inputData length pattern st <>
     Crashed (LaneOutOfBounds idx) st').
Proof.
  intros Hmax.
  assert (Hlast : forall j, j = sz_sub (strlen pattern) 1 -> 0 <= j < strlen pattern ->
                            j = strlen pattern - 1).
  { intros j -> Hj. unfold sz_sub. apply sz_wrap_small. lia. }
  assert (Htrap : forall idx fr,
            myBM_scan char_signed inputData length pattern =
              Trap (LaneOutOfBounds idx) fr ->
            idx = strlen pattern - 1 /\ 16 < strlen pattern).
  { intros idx fr E. apply myBM_scan_lane_trap in E.
    destruct E as (E1 & E2 & E3). rewrite (Hlast idx E1 E2). lia. }
  split; [ | split ].
  - pose proof (myBM_scan_lanes char_signed inputData length pattern) as H.
    destruct (myBM_scan char_signed inputData length pattern) as [fr | fr | f fr];
      simpl in *; intros j Hj; unfold lanes_at_last in H;
      rewrite Forall_forall in H; destruct (H j Hj) as [E1 E2];
      rewrite (Hlast j E1 E2); lia.
  - exact Htrap.
  - intros Hle st idx st' E. rewrite <- myBMScanMethod_eq in E.
    destruct (myBM_scan char_signed inputData length pattern) as [fr | fr | f fr] eqn:Es.
    + destruct (for_lt 16 (myBM_reduce_body (tmpHint fr)) 0 st) as [a | a | g a] eqn:Er;
        [ discriminate | discriminate | ].
      exfalso. exact (myBM_reduce_no_trap _ _ _ _ _ (Z.le_refl 0) Er).
    + destruct (for_lt 16 (myBM_reduce_body (tmpHint fr)) 0 st) as [a | a | g a] eqn:Er;
        [ discriminate | discriminate | ].
      exfalso. exact (myBM_reduce_no_trap _ _ _ _ _ (Z.le_refl 0) Er).
    + injection E as -> _. destruct (Htrap idx fr eq_refl). lia.
Qed.

(** "abababab" scanned for "aba": three increments, all of lane 2. *)
Lemma myBM_lane_accesses_at_last_index_witness :
  strlen (list_byte_of_string "aba") < SIZE_MOD /\
  myBM_scan true (list_byte_of_string "abababab") 8 (list_byte_of_string "aba") =
    Normal {| tmpHint := [0; 0; 3; 0; 0; 0; 0; 0; 0; 0; 0; 0; 0; 0; 0; 0];
              lane_log := [2; 2; 2] |} /\
  (forall j, In j [2; 2; 2] ->
     j = strlen (list_byte_of_string "aba") - 1 /\
     (0 <= j < 16 <-> strlen (list_byte_of_string "aba") <= 16)).
Proof.
  assert (H : strlen (list_byte_of_string "aba") < SIZE_MOD) by reflexivity.
  split; [ exact H | split; [ reflexivity | ] ].
  exact (proj1 (myBM_lane_accesses_at_last_index true
                  (list_byte_of_string "abababab") 8
                  (list_byte_of_string "aba") H)).
Defined.

(** ** myBMScanMethod within the capacity of its lanes *)

Lemma lane_incr_in (char_signed : bool) (p : nat) (fr : BMLocals) :
  (p < 16)%nat ->
  lane_incr char_signed (Z.of_nat p) fr = Normal (bump_lane char_signed p fr).
Proof.
  intros Hp. unfold lane_incr, bump_lane. rewrite Nat2Z.id.
  destruct (Z.leb_spec 0 (Z.of_nat p)); [ | lia ].
  destruct (Z.ltb_spec (Z.of_nat p) 16); [ | lia ]. reflexivity.
Qed.

Lemma myBM_inner_body_in (char_signed : bool) (inputData pattern : list byte)
    (plen : Z) (i k : nat) (fr : BMLocals) :
  (i + k < List.length inputData)%nat ->
  Z.of_nat (List.length inputData) <= UINT_MAX ->
  myBM_inner_body char_signed inputData pattern plen (Z.of_nat i) (Z.of_nat k) fr =
  if negb (bytes_agree inputData pattern i k) then Broke fr
  else if Z.of_nat k =? sz_sub plen 1
       then lane_incr char_signed (sz_sub plen 1) fr else Normal fr.
Proof.
  intros Hk HL. unfold myBM_inner_body.
  rewrite sz_add_nat by (unfold SIZE_MOD, UINT_MAX in *; lia).
  rewrite buf_read_in by exact Hk.
  unfold str_read. rewrite Nat2Z.id. fold (bytes_agree inputData pattern i k).
  destruct (negb (bytes_agree inputData pattern i k)); [ reflexivity | ].
  destruct (Z.eqb_spec (Z.of_nat k) (sz_sub plen 1)) as [-> | _]; reflexivity.
Qed.

Lemma myBM_outer_body_in (char_signed : bool) (inputData pattern : list byte)
    (i : nat) (fr : BMLocals) :
  1 <= strlen pattern <= 16 ->
  Z.of_nat i + strlen pattern <= Z.of_nat (List.length inputData) ->
  Z.of_nat (List.length inputData) <= UINT_MAX ->
  myBM_outer_body char_signed inputData pattern (strlen pattern) (Z.of_nat i) fr =
  Normal (if occurs_atb inputData pattern i
          then bump_lane char_signed (Z.to_nat (strlen pattern) - 1) fr else fr).
Proof.
  intros HP Hi HL. unfold myBM_outer_body.
  pose proof (strlen_bounds pattern) as Hs.
  assert (Hlast : sz_sub (strlen pattern) 1 =
                  Z.of_nat (Z.to_nat (strlen pattern) - 1)).
  { unfold sz_sub. rewrite sz_wrap_small by (unfold SIZE_MOD; lia). lia. }
  change 0 with (Z.of_nat 0) at 1.
  rewrite (for_lt_all (strlen pattern)
             (myBM_inner_body char_signed inputData pattern (strlen pattern) (Z.of_nat i))
             (bytes_agree inputData pattern i)
             (lane_incr char_signed (sz_sub (strlen pattern) 1))
             (sz_sub (strlen pattern) 1))
    with (n := Z.to_nat (strlen pattern)).
  - unfold occurs_atb. rewrite <- bytewise_slices by lia.
    unfold bytes_agree.
    destruct (forallb _ _); [ | reflexivity ].
    destruct (Z.to_nat (strlen pattern)) eqn:E; [ lia | ].
    rewrite Hlast. apply lane_incr_in. lia.
  - lia.
  - intros k s Hk. apply myBM_inner_body_in; lia.
  - intros s. rewrite Hlast, lane_incr_in by lia. exact I.
  - lia.
Qed.

Lemma myBM_scan_spec (char_signed : bool) (inputData : list byte) (length : Z)
    (pattern : list byte) :
  buffer_of inputData length ->
  1 <= strlen pattern <= length -> strlen pattern <= 16 ->
  myBM_scan char_signed inputData length pattern =
  Normal (fold_left (fun fr _ => bump_lane char_signed
                                   (Z.to_nat (strlen pattern) - 1) fr)
                    (occurrences inputData pattern)
                    {| tmpHint := repeat 0 16; lane_log := [] |}).
Proof.
  intros [HL Hmax] HP H16. unfold myBM_scan.
  rewrite scan_bound_fits by lia.
  change 0 with (Z.of_nat 0) at 1.
  rewrite (for_lt_filter (length - strlen pattern + 1)
             (myBM_outer_body char_signed inputData pattern (strlen pattern))
             (occurs_atb inputData pattern)
             (fun _ fr => bump_lane char_signed (Z.to_nat (strlen pattern) - 1) fr))
    with (n := (List.length inputData - Z.to_nat (strlen pattern) + 1)%nat).
  - reflexivity.
  - intros k s Hk. apply myBM_outer_body_in; lia.
  - lia.
Qed.

Lemma lane_store_length (p : nat) (v : Z) (l : list Z) :
  List.length (lane_store p v l) = List.length l.
Proof.
  revert p. induction l as [ | h t IH ]; intros [ | p ]; simpl; auto.
Qed.

Lemma lane_store_nth (p : nat) (v : Z) (l : list Z) :
  (p < List.length l)%nat -> nth p (lane_store p v l) 0 = v.
Proof.
  revert p. induction l as [ | h t IH ]; intros [ | p ] Hp; simpl in *;
    try lia; auto. apply IH. lia.
Qed.

Lemma lane_store_twice (p : nat) (v w : Z) (l : list Z) :
  lane_store p w (lane_store p v l) = lane_store p w l.
Proof.
  revert p. induction l as [ | h t IH ]; intros [ | p ]; simpl; auto.
  rewrite IH. reflexivity.
Qed.

(** After [n] increments of lane [p], that lane holds [n] as long as [n]
    fits a signed [char]; the other lanes are untouched. *)
Lemma bump_lane_iter (char_signed : bool) (p : nat) (A : Type) (hits : list A) :
  (p < 16)%nat -> (List.length hits <= 127)%nat ->
  tmpHint (fold_left (fun fr _ => bump_lane char_signed p fr) hits
             {| tmpHint := repeat 0 16; lane_log := [] |}) =
  lane_store p (Z.of_nat (List.length hits)) (repeat 0 16).
Proof.
  intros Hp.
  assert (G : forall (hits : list A) (n : nat) (log : list Z),
            (n + List.length hits <= 127)%nat ->
            tmpHint (fold_left (fun fr _ => bump_lane char_signed p fr) hits
                       {| tmpHint := lane_store p (Z.of_nat n) (repeat 0 16);
                          lane_log := log |}) =
            lane_store p (Z.of_nat (n + List.length hits)) (repeat 0 16)).
  { clear hits. intros hits. induction hits as [ | h hits IH ]; intros n log Hn.
    - simpl. rewrite Nat.add_0_r. reflexivity.
    - cbn [fold_left List.length] in *. unfold bump_lane at 2. cbn [tmpHint lane_log].
      rewrite lane_store_nth by (rewrite repeat_length; exact Hp).
      rewrite lane_store_twice.
      replace (char_wrap char_signed (Z.of_nat n + 1)) with (Z.of_nat (Datatypes.S n)).
      + rewrite IH by lia. f_equal. lia.
      + unfold char_wrap. destruct char_signed; rewrite Z.mod_small; lia. }
  intros Hn.
  assert (E : repeat 0 16 = lane_store p (Z.of_nat 0) (repeat 0 16)).
  { do 16 (destruct p as [ | p ]; [ reflexivity | ]). lia. }
  rewrite E at 1. rewrite G by lia. reflexivity.
Qed.

Lemma reduce_gsHint (lanes : list Z) (n k : nat) (st : State) :
  INT_MIN <= gsHint st <= INT_MAX ->
  gsHint (fold_left (fun s j => set_gsHint
                                  (int_wrap (gsHint s + nth j lanes 0)) s)
                    (seq k n) st) =
  int_wrap (gsHint st + range_sum lanes k n).
Proof.
  unfold range_sum. revert k st. induction n as [ | n IH ]; intros k st Hr.
  - simpl. rewrite Z.add_0_r. symmetry. apply int_wrap_small. exact Hr.
  - cbn [seq fold_left map fold_right].
    rewrite IH by (simpl; apply int_wrap_range).
    simpl gsHint. rewrite int_wrap_add_l. f_equal. lia.
Qed.

Lemma myBM_reduce_spec (lanes : list Z) (st : State) :
  INT_MIN <= gsHint st <= INT_MAX ->
  exists st',
    for_lt 16 (myBM_reduce_body lanes) 0 st = Normal st' /\
    gsHint st' = int_wrap (gsHint st + range_sum lanes 0 16) /\
    sink_log st' = sink_log st.
Proof.
  intros Hr. change 0 with (Z.of_nat 0) at 1.
  rewrite (for_lt_filter 16 (myBM_reduce_body lanes) (fun _ => true)
             (fun j s => set_gsHint (int_wrap (gsHint s + nth j lanes 0)) s))
    with (n := 16%nat).
  - eexists. split; [ reflexivity | split ].
    + change (filter (fun _ : nat => true) (seq 0 16)) with (seq 0 16).
      apply reduce_gsHint. exact Hr.
    + generalize (filter (fun _ : nat => true) (seq 0 16)). intros l. revert st Hr.
      induction l as [ | j l IH ]; intros st Hr; [ reflexivity | ].
      cbn [fold_left]. rewrite IH by (simpl; apply int_wrap_range). reflexivity.
  - intros k s _. unfold myBM_reduce_body. rewrite Nat2Z.id. reflexivity.
  - reflexivity.
Qed.

Lemma range_sum_single (p : nat) (v : Z) :
  (p < 16)%nat -> range_sum (lane_store p v (repeat 0 16)) 0 16 = v.
Proof.
  intros Hp.
  do 16 (destruct p as [ | p ]; [ unfold range_sum; cbn; lia | ]). lia.
Qed.

(** X16. Where C1 does hold: for a pattern of at most 16 bytes that fits
    the buffer and occurs at most 127 times, the hinted scan, started with
    the counter at 0, ends with the hit count of the plain scan, which is
    the number of occurrences. *)
Lemma myBM_agrees_with_rookie_within_lanes (char_signed : bool)
    (inputData : list byte) (length : Z) (pattern : list byte)
    (st st_rookie : State) :
  buffer_of inputData length ->
  1 <= strlen pattern <= length -> strlen pattern <= 16 ->
  (List.length (occurrences inputData pattern) <= 127)%nat ->
  gsHint st = 0 ->
  exists st',
    myBMScanMethod char_signed inputData length pattern st = Returned 0 st' /\
    gsHint st' =
      gsHint (final_state (rookieScanMethod inputData length pattern st_rookie)) /\
    gsHint st' = Z.of_nat (List.length (occurrences inputData pattern)).
Proof.
  intros HB HP H16 Hn H0.
  assert (Hp : (Z.to_nat (strlen pattern) - 1 < 16)%nat) by lia.
  unfold myBMScanMethod. rewrite myBM_scan_spec by assumption.
  rewrite bump_lane_iter by assumption.
  destruct (myBM_reduce_spec
              (lane_store (Z.to_nat (strlen pattern) - 1)
                 (Z.of_nat (List.length (occurrences inputData pattern)))
                 (repeat 0 16)) st) as (st' & E & Hg & _).
  { rewrite H0. unfold INT_MIN, INT_MAX. lia. }
  rewrite E. exists st'. split; [ reflexivity | ].
  rewrite Hg, H0, range_sum_single by exact Hp.
  rewrite rookieScanMethod_spec by assumption. cbn [final_state].
  rewrite report_all_gsHint by (simpl; unfold INT_MIN, INT_MAX; lia).
  simpl gsHint. split; [ reflexivity | ].
  apply int_wrap_small. unfold INT_MIN, INT_MAX. lia.
Qed.

(** C1 fails on the code. A buffer of 256 bytes 'a' scanned for "a": the
    plain scan counts 256 hits; the hinted scan increments the [char] lane
    [tmpHint\[0\]] 256 times, which brings it back to 0 whether [char] is
    signed or not, and adds 0 to the counter. *)
Theorem myBM_hit_count_wraps (char_signed : bool) :
  buffer_of (repeat "a"%byte 256) 256 /\
  1 <= strlen (list_byte_of_string "a") <= 256 /\
  gsHint (final_state (rookieScanMethod (repeat "a"%byte 256) 256
                         (list_byte_of_string "a") initial_state)) = 256 /\
  myBMScanMethod char_signed (repeat "a"%byte 256) 256
                 (list_byte_of_string "a") initial_state =
    Returned 0 (mkState 0 []).
Proof.
  split; [ split; [ reflexivity | unfold UINT_MAX; lia ] | ].
  split; [ vm_compute; split; discriminate | ].
  split; [ vm_compute; reflexivity | ].
  destruct char_signed; vm_compute; reflexivity.
Qed.

(** ** The harness *)

Lemma eventHandler_same_counter (id from to flags : Z) (ctx : list byte)
    (st1 st2 : State) :
  same_counter st1 st2 ->
  same_counter (snd (eventHandler id from to flags ctx st1))
               (snd (eventHandler id from to flags ctx st2)).
Proof. unfold same_counter. simpl. intros ->. reflexivity. Qed.

Lemma memScanMethod_counter_local : counter_local memScanMethod.
Proof.
  intros inputData length pattern st1 st2 H. unfold memScanMethod.
  assert (A : outcome_agree same_counter
                (for_lt length (mem_body inputData pattern) 0 st1)
                (for_lt length (mem_body inputData pattern) 0 st2)).
  { apply for_lt_agree; [ | exact H ].
    intros i s1 s2 Hs. unfold mem_body.
    destruct (buf_read inputData i); [ | simpl; auto ].
    destruct (Byte.eqb (str_read pattern 0) b);
      [ apply (eventHandler_same_counter 0 0 i 0 pattern s1 s2 Hs) | exact Hs ]. }
  destruct (for_lt length (mem_body inputData pattern) 0 st1),
           (for_lt length (mem_body inputData pattern) 0 st2);
    simpl in A |- *; try contradiction; auto.
Qed.

Lemma rookieScanMethod_counter_local : counter_local rookieScanMethod.
Proof.
  intros inputData length pattern st1 st2 H. unfold rookieScanMethod.
  set (bound := sz_sub length (sz_sub (strlen pattern) 1)).
  set (body := rookie_outer_body inputData pattern (strlen pattern)).
  assert (A : outcome_agree same_counter
                (for_lt bound body 0 (set_gsHint 0 st1))
                (for_lt bound body 0 (set_gsHint 0 st2))).
  { apply for_lt_agree; [ | reflexivity ].
    intros i s1 s2 Hs. unfold body, rookie_outer_body.
    apply for_lt_agree; [ | exact Hs ].
    intros j t1 t2 Ht. unfold rookie_inner_body.
    destruct (buf_read inputData (sz_add i j)); [ | simpl; auto ].
    destruct (negb (Byte.eqb (str_read pattern j) b)); [ exact Ht | ].
    destruct (j =? sz_sub (strlen pattern) 1);
      [ apply (eventHandler_same_counter 0 0 i 0 pattern t1 t2 Ht) | exact Ht ]. }
  destruct (for_lt bound body 0 (set_gsHint 0 st1)),
           (for_lt bound body 0 (set_gsHint 0 st2));
    simpl in A |- *; try contradiction; auto.
Qed.

Lemma myBMScanMethod_counter_local (char_signed : bool) :
  counter_local (myBMScanMethod char_signed).
Proof.
  intros inputData length pattern st1 st2 H. unfold myBMScanMethod.
  destruct (myBM_scan char_signed inputData length pattern) as [fr | fr | f fr];
    [ | | simpl; auto ].
  - assert (A : outcome_agree same_counter
                  (for_lt 16 (myBM_reduce_body (tmpHint fr)) 0 st1)
                  (for_lt 16 (myBM_reduce_body (tmpHint fr)) 0 st2)).
    { apply for_lt_agree; [ | exact H ].
      intros i s1 s2 Hs. unfold myBM_reduce_body, same_counter in *. simpl.
      rewrite Hs. reflexivity. }
    destruct (for_lt 16 (myBM_reduce_body (tmpHint fr)) 0 st1),
             (for_lt 16 (myBM_reduce_body (tmpHint fr)) 0 st2);
      simpl in A |- *; try contradiction; auto.
  - assert (A : outcome_agree same_counter
                  (for_lt 16 (myBM_reduce_body (tmpHint fr)) 0 st1)
                  (for_lt 16 (myBM_reduce_body (tmpHint fr)) 0 st2)).
    { apply for_lt_agree; [ | exact H ].
      intros i s1 s2 Hs. unfold myBM_reduce_body, same_counter in *. simpl.
      rewrite Hs. reflexivity. }
    destruct (for_lt 16 (myBM_reduce_body (tmpHint fr)) 0 st1),
             (for_lt 16 (myBM_reduce_body (tmpHint fr)) 0 st2);
      simpl in A |- *; try contradiction; auto.
Qed.

Lemma paraScanMethod_counter_local : counter_local paraScanMethod.
Proof. intros inputData length pattern st1 st2 H. simpl. auto. Qed.

Section HarnessFacts.
Variable HS_SUCCESS : Z.
Variable hs_database : Type.
Variable hs_compile : list byte -> option hs_database.
Variable hs_alloc_scratch : hs_database -> bool.
Variable hs_scan : hs_database -> list byte -> Z -> list MatchEvent * Z.
Variable char_signed : bool.

Let hyperScan : ScanFun :=
  hyperScanMethod hs_database hs_compile hs_alloc_scratch hs_scan.
Let table : list ScanTestItem :=
  testFuncArr hs_database hs_compile hs_alloc_scratch hs_scan char_signed.

Lemma hyperScanMethod_counter_local : counter_local hyperScan.
Proof.
  intros inputData length pattern st1 st2 H. unfold hyperScan, hyperScanMethod.
  destruct (hs_compile pattern) as [db | ]; [ | simpl; auto ].
  destruct (negb (hs_alloc_scratch db)); [ simpl; auto | ].
  destruct (hs_scan db inputData length) as [evs ret]. simpl. split; [ reflexivity | ].
  apply deliver_same_counter; [ reflexivity | exact H ].
Qed.

Lemma testFuncArr_counter_local :
  Forall (fun item => counter_local (testFun item)) table.
Proof.
  unfold table, testFuncArr.
  apply Forall_cons; [ exact memScanMethod_counter_local | ].
  apply Forall_cons; [ exact hyperScanMethod_counter_local | ].
  apply Forall_cons; [ exact rookieScanMethod_counter_local | ].
  apply Forall_cons; [ exact (myBMScanMethod_counter_local char_signed) | ].
  apply Forall_cons; [ exact paraScanMethod_counter_local | ].
  apply Forall_nil.
Qed.

(** The loop of [main] over any table of counter-local scan functions: the
    lines printed are those of the entries run on their own, in table
    order, up to the first entry that crashes. *)
Lemma run_tests_alone (ret : Z) (inputData : list byte) (length : Z)
    (pattern : list byte) (items : list ScanTestItem) :
  Forall (fun item => counter_local (testFun item)) items ->
  forall st out,
  exists k,
    (k <= List.length items)%nat /\
    reports (fst (run_tests HS_SUCCESS items ret inputData length pattern st out)) =
      out ++ map (line_alone HS_SUCCESS ret inputData length pattern)
                 (firstn k items) /\
    match fst (run_tests HS_SUCCESS items ret inputData length pattern st out) with
    | Exit code _ => code = ret /\ k = List.length items
    | Abort f _ =>
        exists item st', nth_error items k = Some item /\
                         alone item inputData length pattern = Crashed f st'
    end.
Proof.
  intros Hloc. induction Hloc as [ | item items Hitem _ IH ]; intros st out.
  - exists O. simpl. rewrite app_nil_r. auto.
  - cbn [run_tests].
    pose proof (Hitem inputData length pattern (set_gsHint 0 st) initial_state
                  eq_refl) as A.
    fold (alone item inputData length pattern) in A.
    destruct (testFun item inputData length pattern (set_gsHint 0 st))
      as [r st1 | f st1] eqn:E1;
      destruct (alone item inputData length pattern) as [r' st2 | f' st2] eqn:E2;
      simpl in A; try contradiction.
    + destruct A as [_ Hc].
      destruct (IH st1 (out ++ [ {| rp_name := testName item;
                                   rp_status := if ret =? HS_SUCCESS
                                                then "DONE"%string else "ERROR"%string;
                                   rp_hits := gsHint st1 |} ]))
        as (k & Hk & Hout & Hres).
      exists (Datatypes.S k). split; [ simpl; lia | ]. split.
      * rewrite Hout. rewrite <- app_assoc. f_equal. cbn [firstn map app].
        f_equal. unfold line_alone. rewrite E2. cbn [final_state].
        rewrite Hc. reflexivity.
      * destruct (fst (run_tests HS_SUCCESS items ret inputData length pattern st1 _));
          cbn [nth_error List.length]; [ destruct Hres; split; congruence | exact Hres ].
    + destruct A as [-> _]. exists O. split; [ simpl; lia | ]. split.
      * simpl. rewrite app_nil_r. reflexivity.
      * simpl. exists item, st2. split; [ reflexivity | exact E2 ].
Qed.

End HarnessFacts.

(** ** Counters that count the strategy's own events *)

Lemma eventHandler_counts_own (id from to flags : Z) (ctx : list byte)
    (st : State) :
  counts_own_events st ->
  counts_own_events (snd (eventHandler id from to flags ctx st)).
Proof.
  unfold counts_own_events. simpl. intros ->.
  rewrite int_wrap_add_l, length_app. f_equal. simpl. lia.
Qed.

Lemma initial_counts_own : counts_own_events initial_state.
Proof. reflexivity. Qed.

Lemma memScanMethod_counts_own (inputData : list byte) (length : Z)
    (pattern : list byte) (st : State) :
  counts_own_events st ->
  counts_own_events (final_state (memScanMethod inputData length pattern st)).
Proof.
  intros H. unfold memScanMethod.
  assert (A : holds_after counts_own_events
                (for_lt length (mem_body inputData pattern) 0 st)).
  { apply for_lt_invariant with (lo := 0); [ | lia | exact H ].
    intros i s _ Hs. unfold mem_body.
    destruct (buf_read inputData i); [ | exact Hs ].
    destruct (Byte.eqb (str_read pattern 0) b);
      [ exact (eventHandler_counts_own 0 0 i 0 pattern s Hs) | exact Hs ]. }
  destruct (for_lt length (mem_body inputData pattern) 0 st); exact A.
Qed.

Lemma rookieScanMethod_counts_own (inputData : list byte) (length : Z)
    (pattern : list byte) (st : State) :
  sink_log st = [] ->
  counts_own_events (final_state (rookieScanMethod inputData length pattern st)).
Proof.
  intros H. unfold rookieScanMethod.
  set (bound := sz_sub length (sz_sub (strlen pattern) 1)).
  set (body := rookie_outer_body inputData pattern (strlen pattern)).
  assert (A : holds_after counts_own_events (for_lt bound body 0 (set_gsHint 0 st))).
  { apply for_lt_invariant with (lo := 0);
      [ | lia | unfold counts_own_events; simpl; rewrite H; reflexivity ].
    intros i s _ Hs. unfold body, rookie_outer_body.
    apply for_lt_invariant with (lo := 0); [ | lia | exact Hs ].
    intros j t _ Ht. unfold rookie_inner_body.
    destruct (buf_read inputData (sz_add i j)); [ | exact Ht ].
    destruct (negb (Byte.eqb (str_read pattern j) b)); [ exact Ht | ].
    destruct (j =? sz_sub (strlen pattern) 1);
      [ exact (eventHandler_counts_own 0 0 i 0 pattern t Ht) | exact Ht ]. }
  destruct (for_lt bound body 0 (set_gsHint 0 st)); exact A.
Qed.

Lemma deliver_counts_own (ctx : list byte) (evs : list MatchEvent) (st : State) :
  counts_own_events st -> counts_own_events (fold_left (deliver ctx) evs st).
Proof.
  revert st. induction evs as [ | e evs IH ]; intros st H; [ exact H | ].
  cbn [fold_left]. apply IH. apply eventHandler_counts_own. exact H.
Qed.

(** The loader hands the harness a non-empty buffer together with its
    length. *)
Lemma readInputData_buffer (content : option (list byte))
    (inputData : list byte) (length : Z) :
  readInputData content = Some (inputData, length) ->
  buffer_of inputData length /\ 1 <= length.
Proof.
  unfold readInputData, buffer_of. destruct content as [data | ]; [ | discriminate ].
  destruct (Z.gtb_spec (Z.of_nat (List.length data)) UINT_MAX) as [Hbig | Hfit].
  - assert (Hn : Z.of_nat (Z.to_nat UINT_MAX) = UINT_MAX)
      by (apply Z2Nat.id; unfold UINT_MAX; lia).
    remember (Z.to_nat UINT_MAX) as n eqn:En. clear En.
    intros E. injection E as <- <-. rewrite length_firstn.
    unfold UINT_MAX in *. lia.
  - destruct (Z.eqb_spec (Z.of_nat (List.length data)) 0) as [H0 | Hpos];
      [ discriminate | ].
    intros E. injection E as <- <-. lia.
Qed.

Section HarnessClaims.
Variable HS_SUCCESS : Z.
Variable hs_database : Type.
Variable hs_compile : list byte -> option hs_database.
Variable hs_alloc_scratch : hs_database -> bool.
Variable hs_scan : hs_database -> list byte -> Z -> list MatchEvent * Z.
Variable char_signed : bool.

Let table : list ScanTestItem :=
  testFuncArr hs_database hs_compile hs_alloc_scratch hs_scan char_signed.

Lemma hyperScanMethod_counts_own (inputData : list byte) (length : Z)
    (pattern : list byte) (st : State) :
  counts_own_events st ->
  counts_own_events
    (final_state (hyperScanMethod hs_database hs_compile hs_alloc_scratch hs_scan
                    inputData length pattern st)).
Proof.
  intros H. unfold hyperScanMethod.
  destruct (hs_compile pattern) as [db | ]; [ | exact H ].
  destruct (negb (hs_alloc_scratch db)); [ exact H | ].
  destruct (hs_scan db inputData length) as [evs ret].
  apply deliver_counts_own. exact H.
Qed.

(** C8. Whatever state the harness loop starts in, the lines it prints are,
    in the order of the table (allMemScan, hyperScan, rookieScan,
    myBMScanMethod, myScan), the lines of the entries run on their own from
    a counter of 0: the counter is reset before each entry and read after
    it, so nothing an earlier entry counted reaches a later line. All five
    lines are printed unless an entry crashes, and apart from
    myBMScanMethod, which never invokes the callback, the count on a line is
    the number of match events of that entry's own run. *)
Theorem harness_reports_own_counts_in_order (inputData : list byte)
    (length : Z) (pattern : list byte) (st : State) :
  map testName table =
    ["allMemScan"; "hyperScan"; "rookieScan"; "myBMScanMethod"; "myScan"]%string /\
  (exists k,
     (k <= 5)%nat /\
     reports (fst (run_tests HS_SUCCESS table 0 inputData length pattern st [])) =
       map (line_alone HS_SUCCESS 0 inputData length pattern) (firstn k table) /\
     match fst (run_tests HS_SUCCESS table 0 inputData length pattern st []) with
     | Exit code _ => code = 0 /\ k = 5%nat
     | Abort f _ =>
         exists item st', nth_error table k = Some item /\
                          alone item inputData length pattern = Crashed f st'
     end) /\
  (forall item, In item table -> testName item <> "myBMScanMethod"%string ->
     counts_own_events (final_state (alone item inputData length pattern))).
Proof.
  split; [ reflexivity | split ].
  - destruct (run_tests_alone HS_SUCCESS 0 inputData length pattern table
                (testFuncArr_counter_local _ _ _ _ _) st [])
      as (k & Hk & Hout & Hres).
    exists k. split; [ exact Hk | split; [ exact Hout | exact Hres ] ].
  - intros item Hin Hname. unfold table, testFuncArr in Hin. simpl in Hin.
    destruct Hin as [<- | [<- | [<- | [<- | [<- | []]]]]]; unfold alone; cbn [testFun].
    + apply memScanMethod_counts_own, initial_counts_own.
    + apply hyperScanMethod_counts_own, initial_counts_own.
    + apply rookieScanMethod_counts_own. reflexivity.
    + exfalso. apply Hname. reflexivity.
    + exact initial_counts_own.
Qed.

End HarnessClaims.

(** A run over "abababab" with pattern "aba" and an engine that reports
    nothing: four first bytes, three occurrences. *)
Lemma harness_reports_own_counts_in_order_witness :
  fst (run_tests 0 (testFuncArr unit rejecting_compile (fun _ => true) no_scan true)
         0 (list_byte_of_string "abababab") 8 (list_byte_of_string "aba")
         (mkState 41 [mkEvent 1 2 3 4]) []) =
  Exit 0 [ mkReport "allMemScan" "DONE" 4; mkReport "hyperScan" "DONE" 0;
           mkReport "rookieScan" "DONE" 3; mkReport "myBMScanMethod" "DONE" 3;
           mkReport "myScan" "DONE" 0 ] /\
  counts_own_events
    (final_state (alone (mkItem "rookieScan" rookieScanMethod)
                    (list_byte_of_string "abababab") 8 (list_byte_of_string "aba"))).
Proof.
  split; [ reflexivity | ].
  apply (proj2 (proj2 (harness_reports_own_counts_in_order 0 unit rejecting_compile
                         (fun _ => true) no_scan true
                         (list_byte_of_string "abababab") 8
                         (list_byte_of_string "aba") initial_state))).
  - simpl. auto.
  - discriminate.
Defined.

(** [main], once the file is loaded, is the loop over the table, started
    with [ret = 0] and nothing printed. *)
Lemma main_runs_table (HS_SUCCESS : Z) (hs_database : Type)
    (hs_compile : list byte -> option hs_database)
    (hs_alloc_scratch : hs_database -> bool)
    (hs_scan : hs_database -> list byte -> Z -> list MatchEvent * Z)
    (char_signed : bool) (fs : list byte -> FileInfo)
    (prog pattern inputFN inputData : list byte) (length : Z) (st : State) :
  f_exists (fs inputFN) = true ->
  f_readable (fs inputFN) = true ->
  readInputData (f_content (fs inputFN)) = Some (inputData, length) ->
  main HS_SUCCESS hs_database hs_compile hs_alloc_scratch hs_scan char_signed fs
       [prog; pattern; inputFN] st =
  fst (run_tests HS_SUCCESS
         (testFuncArr hs_database hs_compile hs_alloc_scratch hs_scan char_signed)
         0 inputData length pattern st []).
Proof.
  intros He Hr Hload. unfold main. rewrite He, Hr, Hload. reflexivity.
Qed.

(** C4 fails on the code. The pattern "(" does not compile, so
    [hyperScanMethod] returns -1; [main] discards what the scan functions
    return, its local [ret] stays 0 = HS_SUCCESS, and the hyperScan line
    reads DONE like every other line. The remaining entries do run, and
    [main] returns 0. *)
Theorem harness_prints_DONE_for_failed_strategy :
  hyperScanMethod unit rejecting_compile (fun _ => true) no_scan
                  (list_byte_of_string "a(b(") 4 (list_byte_of_string "(")
                  (set_gsHint 0 initial_state) =
    Returned (-1) initial_state /\
  main 0 unit rejecting_compile (fun _ => true) no_scan true
       (one_file (list_byte_of_string "a(b("))
       [list_byte_of_string "simplegrep"; list_byte_of_string "(";
        list_byte_of_string "input.txt"] initial_state =
    Exit 0 [ mkReport "allMemScan" "DONE" 2; mkReport "hyperScan" "DONE" 0;
             mkReport "rookieScan" "DONE" 2; mkReport "myBMScanMethod" "DONE" 2;
             mkReport "myScan" "DONE" 0 ].
Proof.
  split; vm_compute; reflexivity.
Qed.

(** X17. The status column never depends on what a scan function returns:
    every line the loop of [main] prints carries DONE when its local [ret]
    equals HS_SUCCESS and ERROR otherwise, and the loop never assigns
    [ret]. *)
Lemma run_tests_status (HS_SUCCESS ret : Z) (inputData : list byte) (length : Z)
    (pattern : list byte) (items : list ScanTestItem) (st : State)
    (out : list Report) :
  exists new,
    reports (fst (run_tests HS_SUCCESS items ret inputData length pattern st out)) =
      out ++ new /\
    Forall (fun r => rp_status r =
                     if ret =? HS_SUCCESS then "DONE"%string else "ERROR"%string) new.
Proof.
  revert st out. induction items as [ | item items IH ]; intros st out.
  - exists []. simpl. rewrite app_nil_r. auto.
  - cbn [run_tests].
    destruct (testFun item inputData length pattern (set_gsHint 0 st)) as [r st1 | f st1].
    + destruct (IH st1 (out ++ [ {| rp_name := testName item;
                                   rp_status := if ret =? HS_SUCCESS
                                                then "DONE"%string else "ERROR"%string;
                                   rp_hits := gsHint st1 |} ]))
        as (new & Hout & Hnew).
      eexists. split; [ rewrite Hout, <- app_assoc; reflexivity | ].
      constructor; [ reflexivity | exact Hnew ].
    + exists []. simpl. rewrite app_nil_r. auto.
Qed.

(** * Further properties of the program *)

(** ** readInputData *)

(** X1. [readInputData] succeeds exactly on a file whose bytes could be read
    and that is not empty. The buffer it returns is the content of the file,
    cut after UINT_MAX bytes, and the length it reports is the size of that
    buffer: at least 1 and at most UINT_MAX. *)
Theorem readInputData_loads (content : option (list byte))
    (inputData : list byte) (length : Z) :
  (readInputData content = Some (inputData, length) <->
   exists data,
     content = Some data /\ data <> [] /\
     inputData = firstn (Z.to_nat UINT_MAX) data /\
     length = Z.min (Z.of_nat (List.length data)) UINT_MAX) /\
  (readInputData content = Some (inputData, length) ->
   buffer_of inputData length /\ 1 <= length).
Proof.
  split; [ | apply readInputData_buffer ].
  assert (Hn : Z.of_nat (Z.to_nat UINT_MAX) = UINT_MAX)
    by (apply Z2Nat.id; unfold UINT_MAX; lia).
  unfold readInputData.
  remember (Z.to_nat UINT_MAX) as n eqn:En. clear En.
  split.
  - destruct content as [data | ]; [ | discriminate ].
    destruct (Z.gtb_spec (Z.of_nat (List.length data)) UINT_MAX) as [Hbig | Hfit].
    + intros E. injection E as <- <-. exists data.
      split; [ reflexivity | split; [ | split; [ reflexivity | lia ] ] ].
      intros ->. simpl in Hbig. unfold UINT_MAX in Hbig. lia.
    + destruct (Z.eqb_spec (Z.of_nat (List.length data)) 0) as [H0 | Hpos];
        [ discriminate | ].
      intros E. injection E as <- <-. exists data.
      split; [ reflexivity | split; [ | split; [ | lia ] ] ].
      * intros ->. apply Hpos. reflexivity.
      * symmetry. apply firstn_all2. lia.
  - intros (data & -> & Hne & -> & ->).
    destruct (Z.gtb_spec (Z.of_nat (List.length data)) UINT_MAX) as [Hbig | Hfit].
    + f_equal. f_equal. lia.
    + destruct (Z.eqb_spec (Z.of_nat (List.length data)) 0) as [H0 | Hpos].
      * destruct data; [ contradiction | simpl in H0; lia ].
      * rewrite firstn_all2 by lia. f_equal. f_equal. lia.
Qed.

(** ** hyperScanMethod *)



(** ** main: invocations that are turned away *)

Section MainFacts.
Variable HS_SUCCESS : Z.
Variable hs_database : Type.
Variable hs_compile : list byte -> option hs_database.
Variable hs_alloc_scratch : hs_database -> bool.
Variable hs_scan : hs_database -> list byte -> Z -> list MatchEvent * Z.
Variable char_signed : bool.
Variable fs : list byte -> FileInfo.

Let the_main : list (list byte) -> State -> MainResult :=
  main HS_SUCCESS hs_database hs_compile hs_alloc_scratch hs_scan char_signed fs.

(** X3. [main] returns -1 and prints no report line, running none of the
    scans, when it is not given exactly a pattern and a file name, when the
    file does not exist or may not be read, when reading it fails, and when
    it is empty. *)
Theorem main_rejects_bad_invocation (argv : list (list byte)) (st : State) :
  List.length argv <> 3%nat \/
  (exists prog pattern inputFN,
     argv = [prog; pattern; inputFN] /\
     (f_exists (fs inputFN) = false \/
      f_readable (fs inputFN) = false \/
      f_content (fs inputFN) = None \/
      f_content (fs inputFN) = Some [])) ->
  the_main argv st = Exit (-1) [].
Proof.
  unfold the_main, main. intros [Hlen | (prog & pattern & inputFN & -> & Hbad)].
  - destruct argv as [ | a [ | b [ | c [ | d argv ] ] ] ]; try reflexivity.
    exfalso. apply Hlen. reflexivity.
  - destruct Hbad as [H | [H | [H | H]]].
    + rewrite H. reflexivity.
    + rewrite H. destruct (f_exists (fs inputFN)); reflexivity.
    + rewrite H. destruct (f_exists (fs inputFN)), (f_readable (fs inputFN));
        reflexivity.
    + rewrite H. destruct (f_exists (fs inputFN)), (f_readable (fs inputFN));
        reflexivity.
Qed.


End MainFacts.

(** An invocation without a file name. *)
Lemma main_rejects_bad_invocation_witness :
  main 0 unit rejecting_compile (fun _ => true) no_scan true
       (one_file (list_byte_of_string "abc"))
       [list_byte_of_string "simplegrep"; list_byte_of_string "abc"]
       initial_state = Exit (-1) [].
Proof.
  apply (main_rejects_bad_invocation 0 unit rejecting_compile (fun _ => true)
           no_scan true (one_file (list_byte_of_string "abc"))).
  left. simpl. discriminate.
Defined.


(** ** The brute-force scans at the edges of their loop bound *)

Lemma for_lt_skip {S : Type} (bound : Z) (body : Z -> S -> outcome S) (lo : Z) :
  (forall k s, lo <= k < bound -> body k s = Normal s) ->
  forall i s, lo <= i -> for_lt bound body i s = Normal s.
Proof.
  intros Hbody i s.
  remember (Z.to_nat (bound - i)) as n eqn:Hn.
  revert i Hn. induction n as [ | n IH ]; intros i Hn Hlo.
  - apply for_lt_done. lia.
  - rewrite for_lt_unfold. destruct (Z.ltb_spec i bound); [ | reflexivity ].
    rewrite Hbody by lia. apply IH; lia.
Qed.

(** The loop bound [length - (plen - 1)] for the empty pattern: [plen - 1]
    wraps around to 2^64 - 1 and the difference to [length + 1]. *)
Lemma scan_bound_empty (length : Z) :
  0 <= length <= UINT_MAX -> sz_sub length (sz_sub 0 1) = length + 1.
Proof.
  intros H. unfold sz_sub, sz_wrap, SIZE_MOD, UINT_MAX in *.
  change ((0 - 1) mod 2 ^ 64) with (2 ^ 64 - 1).
  replace (length - (2 ^ 64 - 1)) with (length + 1 + (-1) * 2 ^ 64) by lia.
  rewrite Z.mod_add by lia. apply Z.mod_small. lia.
Qed.

Lemma myBM_scan_idle (char_signed : bool) (inputData : list byte) (length : Z)
    (pattern : list byte) :
  (forall k fr, 0 <= k < sz_sub length (sz_sub (strlen pattern) 1) ->
     myBM_outer_body char_signed inputData pattern (strlen pattern) k fr = Normal fr) ->
  myBM_scan char_signed inputData length pattern =
  Normal {| tmpHint := repeat 0 16; lane_log := [] |}.
Proof.
  intros H. unfold myBM_scan. apply for_lt_skip with (lo := 0); [ exact H | lia ].
Qed.

(** The hinted scan after a loop nest that left every lane at 0. *)
Lemma myBMScanMethod_idle (char_signed : bool) (inputData : list byte)
    (length : Z) (pattern : list byte) (st : State) :
  myBM_scan char_signed inputData length pattern =
    Normal {| tmpHint := repeat 0 16; lane_log := [] |} ->
  INT_MIN <= gsHint st <= INT_MAX ->
  exists st',
    myBMScanMethod char_signed inputData length pattern st = Returned 0 st' /\
    gsHint st' = gsHint st /\ sink_log st' = sink_log st.
Proof.
  intros Hscan Hr. unfold myBMScanMethod. rewrite Hscan. cbn [tmpHint].
  destruct (myBM_reduce_spec (repeat 0 16) st Hr) as (st' & E & Hg & Hl).
  rewrite E. exists st'. split; [ reflexivity | split; [ | exact Hl ] ].
  rewrite Hg. change (range_sum (repeat 0 16) 0 16) with 0.
  rewrite Z.add_0_r. apply int_wrap_small. exact Hr.
Qed.

(** X5. With a pattern exactly one byte longer than the buffer the loop
    bound [length - (plen - 1)] is 0: both brute-force scans return 0
    without reading a byte or invoking the callback; [rookieScanMethod]
    leaves the counter at 0 and [myBMScanMethod] leaves it as it was. *)
Theorem brute_force_pattern_one_longer (char_signed : bool)
    (inputData : list byte) (length : Z) (pattern : list byte) (st : State) :
  buffer_of inputData length ->
  strlen pattern = length + 1 ->
  INT_MIN <= gsHint st <= INT_MAX ->
  sz_sub length (sz_sub (strlen pattern) 1) = 0 /\
  rookieScanMethod inputData length pattern st = Returned 0 (set_gsHint 0 st) /\
  exists st',
    myBMScanMethod char_signed inputData length pattern st = Returned 0 st' /\
    gsHint st' = gsHint st /\ sink_log st' = sink_log st.
Proof.
  intros HB HP Hr.
  assert (Hb : sz_sub length (sz_sub (strlen pattern) 1) = 0).
  { destruct HB as [HL Hmax]. rewrite HP. unfold sz_sub.
    replace (length + 1 - 1) with length by lia.
    rewrite (sz_wrap_small length) by (unfold SIZE_MOD, UINT_MAX in *; lia).
    rewrite Z.sub_diag. reflexivity. }
  split; [ exact Hb | ].
  split; [ apply rookie_pattern_one_longer; assumption | ].
  apply myBMScanMethod_idle; [ | exact Hr ].
  apply myBM_scan_idle. intros k fr Hk. exfalso. lia.
Qed.

Lemma brute_force_pattern_one_longer_witness :
  sz_sub 2 (sz_sub (strlen (list_byte_of_string "abc")) 1) = 0 /\
  rookieScanMethod (list_byte_of_string "ab") 2 (list_byte_of_string "abc")
                   (mkState 5 []) = Returned 0 (set_gsHint 0 (mkState 5 [])) /\
  exists st',
    myBMScanMethod true (list_byte_of_string "ab") 2 (list_byte_of_string "abc")
                   (mkState 5 []) = Returned 0 st' /\
    gsHint st' = gsHint (mkState 5 []) /\ sink_log st' = sink_log (mkState 5 []).
Proof.
  apply (brute_force_pattern_one_longer true (list_byte_of_string "ab") 2
           (list_byte_of_string "abc") (mkState 5 [])).
  - split; [ reflexivity | unfold UINT_MAX; lia ].
  - reflexivity.
  - simpl. unfold INT_MIN, INT_MAX. lia.
Defined.

(** X6. With the empty pattern [plen - 1] wraps around, the bound becomes
    [length + 1], and the outer loop of both brute-force scans runs
    [length + 1] times over an inner loop that never runs: they return 0
    without reading a byte or invoking the callback, [rookieScanMethod]
    with the counter at 0 and [myBMScanMethod] with the counter as it
    was. *)
Theorem brute_force_empty_pattern (char_signed : bool)
    (inputData : list byte) (length : Z) (pattern : list byte) (st : State) :
  buffer_of inputData length ->
  strlen pattern = 0 ->
  INT_MIN <= gsHint st <= INT_MAX ->
  sz_sub length (sz_sub (strlen pattern) 1) = length + 1 /\
  rookieScanMethod inputData length pattern st = Returned 0 (set_gsHint 0 st) /\
  exists st',
    myBMScanMethod char_signed inputData length pattern st = Returned 0 st' /\
    gsHint st' = gsHint st /\ sink_log st' = sink_log st.
Proof.
  intros [HL Hmax] HP Hr.
  split; [ rewrite HP; apply scan_bound_empty; lia | ]. split.
  - unfold rookieScanMethod. rewrite HP.
    rewrite (for_lt_skip _ _ 0); [ reflexivity | | lia ].
    intros k s Hk. unfold rookie_outer_body. apply for_lt_done. lia.
  - apply myBMScanMethod_idle; [ | exact Hr ].
    apply myBM_scan_idle. intros k fr Hk. rewrite HP.
    unfold myBM_outer_body. apply for_lt_done. lia.
Qed.

Lemma brute_force_empty_pattern_witness :
  sz_sub 2 (sz_sub (strlen []) 1) = 2 + 1 /\
  rookieScanMethod (list_byte_of_string "ab") 2 [] (mkState 5 []) =
    Returned 0 (set_gsHint 0 (mkState 5 [])) /\
  exists st',
    myBMScanMethod true (list_byte_of_string "ab") 2 [] (mkState 5 []) =
      Returned 0 st' /\
    gsHint st' = gsHint (mkState 5 []) /\ sink_log st' = sink_log (mkState 5 []).
Proof.
  apply (brute_force_empty_pattern true (list_byte_of_string "ab") 2 []
           (mkState 5 [])).
  - split; [ reflexivity | unfold UINT_MAX; lia ].
  - reflexivity.
  - simpl. unfold INT_MIN, INT_MAX. lia.
Defined.

Lemma str_read_empty (pattern : list byte) :
  strlen pattern = 0 -> str_read pattern 0 = x00.
Proof.
  destruct pattern as [ | c rest ]; [ reflexivity | ]. cbn [strlen].
  destruct (Byte.eqb c x00) eqn:E.
  - intros _. apply Byte.byte_dec_bl in E. subst c. reflexivity.
  - pose proof (strlen_bounds rest). lia.
Qed.

(** X7. With the empty pattern [memScanMethod] compares the buffer with
    [pattern\[0\]], the terminating NUL of the string: it reports exactly
    the positions of the zero bytes of the buffer. *)
Theorem memScan_empty_pattern_counts_NUL (inputData : list byte) (length : Z)
    (pattern : list byte) (st : State) :
  buffer_of inputData length ->
  strlen pattern = 0 ->
  let positions := first_byte_positions inputData pattern in
  memScanMethod inputData length pattern st =
    Returned 0 (report_all pattern positions st) /\
  sink_log (report_all pattern positions st) =
    sink_log st ++ map event_at positions /\
  (forall i, In i positions <->
             (i < List.length inputData)%nat /\ nth i inputData x00 = x00) /\
  List.length positions = count_occ Byte.byte_eq_dec inputData x00.
Proof.
  intros [HL Hmax] HP positions. subst positions.
  pose proof (str_read_empty pattern HP) as H0.
  split; [ apply memScanMethod_spec; exact HL | ].
  split; [ apply report_all_log | ].
  split.
  - intros i. rewrite first_byte_positions_spec.
    replace (hd x00 pattern) with x00
      by (rewrite <- H0; destruct pattern; reflexivity).
    reflexivity.
  - rewrite first_byte_positions_count, H0. reflexivity.
Qed.

Lemma memScan_empty_pattern_counts_NUL_witness :
  memScanMethod [x61; x00; x62; x00] 4 [] initial_state =
  Returned 0 (mkState 2 [event_at 1; event_at 3]).
Proof.
  assert (HB : buffer_of [x61; x00; x62; x00] 4)
    by (split; [ reflexivity | unfold UINT_MAX; lia ]).
  rewrite (proj1 (memScan_empty_pattern_counts_NUL _ _ [] initial_state HB eq_refl)).
  reflexivity.
Defined.

(** ** Patterns at least two bytes longer than the buffer *)

(** A loop nest that scans from every start offset and cannot get past the
    offset [L] ends in a trap. *)
Lemma nested_loop_runs_off {S : Type} (outer : Z -> S -> outcome S)
    (inner : Z -> Z -> S -> outcome S) (plen bound : Z) (L : nat)
    (P : fault -> Prop) :
  (forall i s, outer i s = for_lt plen (inner i) 0 s) ->
  Z.of_nat L < bound ->
  (forall i s f s', (i <= L)%nat ->
     for_lt plen (inner (Z.of_nat i)) 0 s = Trap f s' -> P f) ->
  (forall s, exists f s', for_lt plen (inner (Z.of_nat L)) 0 s = Trap f s') ->
  forall n i s, (i + n = L)%nat ->
    exists f s', for_lt bound outer (Z.of_nat i) s = Trap f s' /\ P f.
Proof.
  intros Houter Hb Hclass Hlast n. induction n as [ | n IH ]; intros i s Hn.
  - rewrite for_lt_unfold. destruct (Z.ltb_spec (Z.of_nat i) bound); [ | lia ].
    rewrite Houter. replace i with L by lia.
    destruct (Hlast s) as (f & s' & E). rewrite E.
    exists f, s'. split; [ reflexivity | ]. apply (Hclass L s f s'); [ lia | exact E ].
  - rewrite for_lt_unfold. destruct (Z.ltb_spec (Z.of_nat i) bound); [ | lia ].
    rewrite Houter.
    destruct (for_lt plen (inner (Z.of_nat i)) 0 s) as [s1 | s1 | f s1] eqn:E.
    + replace (Z.of_nat i + 1) with (Z.of_nat (Datatypes.S i)) by lia.
      apply IH. lia.
    + exfalso. exact (for_lt_not_broke _ _ _ _ _ E).
    + exists f, s1. split; [ reflexivity | ].
      apply (Hclass i s f s1); [ lia | exact E ].
Qed.

Lemma myBM_inner_body_trap (char_signed : bool) (inputData pattern : list byte)
    (plen : Z) (i : nat) (k : Z) (fr : BMLocals) (f : fault) (fr' : BMLocals) :
  (i <= List.length inputData)%nat ->
  Z.of_nat (List.length inputData) + 2 <= plen -> plen <= UINT_MAX ->
  Z.of_nat (List.length inputData) <= UINT_MAX ->
  0 <= k < plen ->
  myBM_inner_body char_signed inputData pattern plen (Z.of_nat i) k fr = Trap f fr' ->
  exists idx, f = BufferOverread idx /\ Z.of_nat (List.length inputData) <= idx.
Proof.
  intros Hi HP Hmax HL Hk. unfold myBM_inner_body.
  assert (Eadd : sz_add (Z.of_nat i) k = Z.of_nat i + k)
    by (unfold sz_add; apply sz_wrap_small; unfold SIZE_MOD, UINT_MAX in *; lia).
  rewrite Eadd.
  destruct (buf_read inputData (Z.of_nat i + k)) as [c | ] eqn:Er.
  - destruct (negb (Byte.eqb (str_read pattern k) c)); [ discriminate | ].
    destruct (Z.eqb_spec k (sz_sub plen 1)) as [Heq | Hne]; [ | discriminate ].
    exfalso.
    assert (Hlast : sz_sub plen 1 = plen - 1)
      by (unfold sz_sub; apply sz_wrap_small; unfold SIZE_MOD, UINT_MAX in *; lia).
    rewrite buf_read_out in Er by lia. discriminate.
  - intros E. injection E as <- _. exists (Z.of_nat i + k). split; [ reflexivity | ].
    unfold buf_read in Er. destruct (Z.ltb_spec (Z.of_nat i + k) 0); [ lia | ].
    apply nth_error_None in Er. lia.
Qed.

Lemma myBM_crashes_on_long_pattern (char_signed : bool) (inputData : list byte)
    (length : Z) (pattern : list byte) (st : State) :
  buffer_of inputData length ->
  length + 2 <= strlen pattern <= UINT_MAX ->
  exists idx,
    myBMScanMethod char_signed inputData length pattern st =
      Crashed (BufferOverread idx) st /\
    length <= idx.
Proof.
  intros [HL Hmax] HP.
  destruct (nested_loop_runs_off
              (myBM_outer_body char_signed inputData pattern (strlen pattern))
              (myBM_inner_body char_signed inputData pattern (strlen pattern))
              (strlen pattern)
              (SIZE_MOD - (strlen pattern - 1 - length))
              (List.length inputData)
              (fun f => exists idx, f = BufferOverread idx /\
                                    Z.of_nat (List.length inputData) <= idx))
    with (n := List.length inputData) (i := O)
         (s := {| tmpHint := repeat 0 16; lane_log := [] |})
    as (f & fr & E & idx & -> & Hidx).
  - intros i s. symmetry. apply myBM_outer_body_eq.
  - unfold SIZE_MOD, UINT_MAX in *. lia.
  - intros i s f s' Hi E.
    destruct (for_lt_trap_origin _ _ 0 0 _ _ _ (Z.le_refl 0) E) as (k & s0 & Hk & Ek).
    apply (myBM_inner_body_trap char_signed inputData pattern (strlen pattern)
             i k s0 f s'); try assumption; lia.
  - intros s. rewrite for_lt_unfold.
    destruct (Z.ltb_spec 0 (strlen pattern)); [ | lia ].
    unfold myBM_inner_body at 1.
    replace (sz_add (Z.of_nat (List.length inputData)) 0)
      with (Z.of_nat (List.length inputData))
      by (unfold sz_add; rewrite sz_wrap_small;
          [ lia | unfold SIZE_MOD, UINT_MAX in *; lia ]).
    rewrite buf_read_out by lia. eexists. eexists. reflexivity.
  - reflexivity.
  - exists idx. split; [ | lia ].
    unfold myBMScanMethod. rewrite <- myBM_scan_eq.
    rewrite scan_bound_wraps by (unfold SIZE_MOD, UINT_MAX in *; lia).
    change (Z.of_nat 0) with 0 in E. rewrite E. reflexivity.
Qed.

(** X8. For every pattern at least two bytes longer than the buffer the
    bound [length - (plen - 1)] wraps around to a value above the length of
    the buffer, and both brute-force scans end up reading [inputData] at an
    index outside the buffer; neither returns. *)
Theorem brute_force_overreads_longer_pattern (char_signed : bool)
    (inputData : list byte) (length : Z) (pattern : list byte) (st : State) :
  buffer_of inputData length ->
  length + 2 <= strlen pattern <= UINT_MAX ->
  length < sz_sub length (sz_sub (strlen pattern) 1) /\
  (exists idx st',
     rookieScanMethod inputData length pattern st =
       Crashed (BufferOverread idx) st' /\
     length <= idx) /\
  (exists idx,
     myBMScanMethod char_signed inputData length pattern st =
       Crashed (BufferOverread idx) st /\
     length <= idx).
Proof.
  intros HB HP. split; [ | split ].
  - destruct HB as [HL Hmax].
    rewrite scan_bound_wraps by (unfold SIZE_MOD, UINT_MAX in *; lia).
    unfold SIZE_MOD, UINT_MAX in *. lia.
  - apply rookie_crashes_on_long_pattern; [ exact HB | ].
    unfold SIZE_MOD, UINT_MAX in *. lia.
  - apply myBM_crashes_on_long_pattern; assumption.
Qed.

Lemma brute_force_overreads_longer_pattern_witness :
  2 < sz_sub 2 (sz_sub (strlen (list_byte_of_string "abcd")) 1) /\
  (exists idx st',
     rookieScanMethod (list_byte_of_string "ab") 2 (list_byte_of_string "abcd")
                      initial_state = Crashed (BufferOverread idx) st' /\
     2 <= idx) /\
  (exists idx,
     myBMScanMethod true (list_byte_of_string "ab") 2 (list_byte_of_string "abcd")
                    initial_state = Crashed (BufferOverread idx) initial_state /\
     2 <= idx).
Proof.
  apply (brute_force_overreads_longer_pattern true (list_byte_of_string "ab") 2
           (list_byte_of_string "abcd") initial_state).
  - split; [ reflexivity | unfold UINT_MAX; lia ].
  - change (strlen (list_byte_of_string "abcd")) with 4. unfold UINT_MAX. lia.
Defined.

(** ** myBMScanMethod: what reaches the counter *)

(** X9. [myBMScanMethod] never invokes the callback: however it ends, the
    log of callback invocations is the one it was called with. *)
Theorem myBM_never_invokes_callback (char_signed : bool)
    (inputData : list byte) (length : Z) (pattern : list byte) (st : State) :
  sink_log (final_state (myBMScanMethod char_signed inputData length pattern st)) =
  sink_log st.
Proof.
  unfold myBMScanMethod.
  assert (A : forall lanes,
            holds_after (fun s => sink_log s = sink_log st)
              (for_lt 16 (myBM_reduce_body lanes) 0 st)).
  { intros lanes. apply for_lt_invariant with (lo := 0); [ | lia | reflexivity ].
    intros i s _ Hs. exact Hs. }
  destruct (myBM_scan char_signed inputData length pattern) as [fr | fr | f fr];
    [ | | reflexivity ];
    specialize (A (tmpHint fr));
    destruct (for_lt 16 (myBM_reduce_body (tmpHint fr)) 0 st); exact A.
Qed.

Lemma char_wrap_range (char_signed : bool) (z : Z) :
  -128 <= char_wrap char_signed z <= 255.
Proof.
  unfold char_wrap. destruct char_signed.
  - pose proof (Z.mod_pos_bound (z + 128) 256 ltac:(lia)). lia.
  - pose proof (Z.mod_pos_bound z 256 ltac:(lia)). lia.
Qed.

Lemma char_wrap_succ (char_signed : bool) (z : Z) :
  char_wrap char_signed (char_wrap char_signed z + 1) = char_wrap char_signed (z + 1).
Proof.
  unfold char_wrap. destruct char_signed.
  - f_equal.
    replace ((z + 128) mod 256 - 128 + 1 + 128) with ((z + 128) mod 256 + 1) by lia.
    rewrite Zplus_mod_idemp_l. f_equal. lia.
  - apply Zplus_mod_idemp_l.
Qed.

(** After [n] increments lane [p] holds [n] converted to [char]. *)
Lemma bump_lane_wraps (char_signed : bool) (p : nat) (A : Type) (hits : list A) :
  (p < 16)%nat ->
  tmpHint (fold_left (fun fr _ => bump_lane char_signed p fr) hits
             {| tmpHint := repeat 0 16; lane_log := [] |}) =
  lane_store p (char_wrap char_signed (Z.of_nat (List.length hits))) (repeat 0 16).
Proof.
  intros Hp.
  assert (G : forall (hits : list A) (n : nat) (log : list Z),
            tmpHint (fold_left (fun fr _ => bump_lane char_signed p fr) hits
                       {| tmpHint := lane_store p (char_wrap char_signed (Z.of_nat n))
                                                (repeat 0 16);
                          lane_log := log |}) =
            lane_store p (char_wrap char_signed (Z.of_nat (n + List.length hits)))
                       (repeat 0 16)).
  { clear hits. intros hits. induction hits as [ | h hits IH ]; intros n log.
    - simpl. rewrite Nat.add_0_r. reflexivity.
    - cbn [fold_left List.length]. unfold bump_lane at 2. cbn [tmpHint lane_log].
      rewrite lane_store_nth by (rewrite repeat_length; exact Hp).
      rewrite lane_store_twice, char_wrap_succ.
      replace (Z.of_nat n + 1) with (Z.of_nat (Datatypes.S n)) by lia.
      rewrite IH. f_equal. f_equal. lia. }
  assert (E : repeat 0 16 =
              lane_store p (char_wrap char_signed (Z.of_nat 0)) (repeat 0 16)).
  { replace (char_wrap char_signed (Z.of_nat 0)) with 0
      by (destruct char_signed; reflexivity).
    do 16 (destruct p as [ | p ]; [ reflexivity | ]). lia. }
  rewrite E at 1. rewrite G. reflexivity.
Qed.

Lemma myBMScanMethod_spec (char_signed : bool)
    (inputData : list byte) (length : Z) (pattern : list byte) (st : State) :
  buffer_of inputData length ->
  1 <= strlen pattern <= length -> strlen pattern <= 16 ->
  INT_MIN <= gsHint st <= INT_MAX ->
  exists st',
    myBMScanMethod char_signed inputData length pattern st = Returned 0 st' /\
    gsHint st' =
      int_wrap (gsHint st +
                char_wrap char_signed
                  (Z.of_nat (List.length (occurrences inputData pattern)))) /\
    sink_log st' = sink_log st.
Proof.
  intros HB HP H16 Hr.
  assert (Hp : (Z.to_nat (strlen pattern) - 1 < 16)%nat) by lia.
  unfold myBMScanMethod. rewrite myBM_scan_spec by assumption.
  rewrite bump_lane_wraps by assumption.
  destruct (myBM_reduce_spec
              (lane_store (Z.to_nat (strlen pattern) - 1)
                 (char_wrap char_signed
                    (Z.of_nat (List.length (occurrences inputData pattern))))
                 (repeat 0 16)) st Hr) as (st' & E & Hg & Hl).
  rewrite E. exists st'. split; [ reflexivity | split; [ | exact Hl ] ].
  rewrite Hg, range_sum_single by exact Hp. reflexivity.
Qed.

(** X10. For a pattern of 1 to 16 bytes that fits the buffer,
    [myBMScanMethod] returns 0 and adds to the counter the number of
    occurrences of the pattern converted to [char]: the count modulo 256,
    read as a signed byte where [char] is signed. It does not reset the
    counter. *)
Theorem myBM_adds_char_of_occurrences (char_signed : bool)
    (inputData : list byte) (length : Z) (pattern : list byte) (st : State) :
  buffer_of inputData length ->
  1 <= strlen pattern <= length -> strlen pattern <= 16 ->
  INT_MIN <= gsHint st <= INT_MAX ->
  exists st',
    myBMScanMethod char_signed inputData length pattern st = Returned 0 st' /\
    gsHint st' =
      int_wrap (gsHint st +
                char_wrap char_signed
                  (Z.of_nat (List.length (occurrences inputData pattern)))) /\
    (gsHint st = 0 ->
     gsHint st' =
       char_wrap char_signed
         (Z.of_nat (List.length (occurrences inputData pattern)))) /\
    sink_log st' = sink_log st.
Proof.
  intros HB HP H16 Hr.
  destruct (myBMScanMethod_spec char_signed inputData length pattern st HB HP H16 Hr)
    as (st' & E & Hg & Hl).
  exists st'. split; [ exact E | split; [ exact Hg | split; [ | exact Hl ] ] ].
  intros H0. rewrite Hg, H0. apply int_wrap_small.
  pose proof (char_wrap_range char_signed
                (Z.of_nat (List.length (occurrences inputData pattern)))).
  unfold INT_MIN, INT_MAX. lia.
Qed.

(** 300 occurrences of "a": 300 mod 256 = 44 is added to a counter of 5. *)
Lemma myBM_adds_char_of_occurrences_witness :
  exists st',
    myBMScanMethod true (repeat "a"%byte 300) 300 (list_byte_of_string "a")
                   (mkState 5 []) = Returned 0 st' /\
    gsHint st' =
      int_wrap (gsHint (mkState 5 []) +
                char_wrap true
                  (Z.of_nat (List.length
                     (occurrences (repeat "a"%byte 300) (list_byte_of_string "a"))))) /\
    (gsHint (mkState 5 []) = 0 ->
     gsHint st' =
       char_wrap true
         (Z.of_nat (List.length
            (occurrences (repeat "a"%byte 300) (list_byte_of_string "a"))))) /\
    sink_log st' = sink_log (mkState 5 []).
Proof.
  apply (myBM_adds_char_of_occurrences true (repeat "a"%byte 300) 300
           (list_byte_of_string "a") (mkState 5 [])).
  - split; [ reflexivity | unfold UINT_MAX; lia ].
  - change (strlen (list_byte_of_string "a")) with 1. lia.
  - change (strlen (list_byte_of_string "a")) with 1. lia.
  - simpl. unfold INT_MIN, INT_MAX. lia.
Defined.

Lemma myBM_agrees_with_rookie_within_lanes_witness :
  exists st',
    myBMScanMethod true (list_byte_of_string "abababab") 8
                   (list_byte_of_string "aba") initial_state = Returned 0 st' /\
    gsHint st' =
      gsHint (final_state (rookieScanMethod (list_byte_of_string "abababab") 8
                             (list_byte_of_string "aba") (mkState 9 []))) /\
    gsHint st' =
      Z.of_nat (List.length (occurrences (list_byte_of_string "abababab")
                                         (list_byte_of_string "aba"))).
Proof.
  apply (myBM_agrees_with_rookie_within_lanes true
           (list_byte_of_string "abababab") 8 (list_byte_of_string "aba")
           initial_state (mkState 9 [])).
  - split; [ reflexivity | unfold UINT_MAX; lia ].
  - change (strlen (list_byte_of_string "aba")) with 3. lia.
  - change (strlen (list_byte_of_string "aba")) with 3. lia.
  - vm_compute. lia.
  - reflexivity.
Defined.

(** ** myBMScanMethod with a pattern longer than its 16 lanes *)






(** ** The two callback-driven scans compared *)

Lemma occurrence_has_first_byte (inputData pattern : list byte) (i : nat) :
  1 <= strlen pattern ->
  (i + Z.to_nat (strlen pattern) <= List.length inputData)%nat ->
  occurs_atb inputData pattern i = true ->
  first_byte_at inputData pattern i = true.
Proof.
  intros HP Hi H. pose proof (strlen_bounds pattern) as Hs.
  unfold occurs_atb in H. rewrite <- bytewise_slices in H by lia.
  rewrite forallb_forall in H. specialize (H O).
  unfold first_byte_at, str_read. change (Z.to_nat 0) with O.
  rewrite Nat.add_0_r in H. apply H. apply in_seq. lia.
Qed.

Lemma occurrences_incl_first_byte_positions (inputData pattern : list byte) :
  1 <= strlen pattern <= Z.of_nat (List.length inputData) ->
  incl (occurrences inputData pattern) (first_byte_positions inputData pattern).
Proof.
  intros HP i Hi. unfold occurrences, start_offsets in Hi.
  apply filter_In in Hi. destruct Hi as [Hi Hocc]. apply in_seq in Hi.
  unfold first_byte_positions. apply filter_In. split.
  - apply in_seq. lia.
  - apply occurrence_has_first_byte; [ lia | lia | exact Hocc ].
Qed.

(** X12. For a non-empty pattern that fits the buffer, every match event
    [rookieScanMethod] delivers is also delivered by [memScanMethod] on the
    same buffer and pattern: the first-byte scan reports a superset of the
    occurrences, and at least as many events. *)
Theorem memScan_covers_rookie (inputData : list byte) (length : Z)
    (pattern : list byte) (st_mem st_rookie : State) :
  buffer_of inputData length ->
  1 <= strlen pattern <= length ->
  exists new_mem new_rookie,
    sink_log (final_state (memScanMethod inputData length pattern st_mem)) =
      sink_log st_mem ++ new_mem /\
    sink_log (final_state (rookieScanMethod inputData length pattern st_rookie)) =
      sink_log st_rookie ++ new_rookie /\
    incl new_rookie new_mem /\
    (List.length new_rookie <= List.length new_mem)%nat.
Proof.
  intros HB HP. pose proof HB as [HL Hmax].
  rewrite memScanMethod_spec by exact HL.
  rewrite rookieScanMethod_spec by assumption. cbn [final_state].
  exists (map event_at (first_byte_positions inputData pattern)),
         (map event_at (occurrences inputData pattern)).
  assert (Hincl : incl (occurrences inputData pattern)
                       (first_byte_positions inputData pattern))
    by (apply occurrences_incl_first_byte_positions; lia).
  split; [ apply report_all_log | ].
  split; [ rewrite report_all_log; reflexivity | ].
  split.
  - apply incl_map. exact Hincl.
  - rewrite !length_map. apply NoDup_incl_length; [ apply occurrences_NoDup | exact Hincl ].
Qed.

(** "aXa" never holds "ab" but holds the byte 'a' twice. *)
Lemma memScan_covers_rookie_witness :
  exists new_mem new_rookie,
    sink_log (final_state (memScanMethod (list_byte_of_string "aXa") 3
                             (list_byte_of_string "ab") initial_state)) =
      sink_log initial_state ++ new_mem /\
    sink_log (final_state (rookieScanMethod (list_byte_of_string "aXa") 3
                             (list_byte_of_string "ab") initial_state)) =
      sink_log initial_state ++ new_rookie /\
    incl new_rookie new_mem /\
    (List.length new_rookie <= List.length new_mem)%nat.
Proof.
  apply (memScan_covers_rookie (list_byte_of_string "aXa") 3
           (list_byte_of_string "ab") initial_state initial_state).
  - split; [ reflexivity | unfold UINT_MAX; lia ].
  - change (strlen (list_byte_of_string "ab")) with 2. lia.
Defined.

(** ** The registered scans are repeatable *)



(** ** main on a pattern that fits *)

Lemma hyperScanMethod_events (hs_database : Type)
    (hs_compile : list byte -> option hs_database)
    (hs_alloc_scratch : hs_database -> bool)
    (hs_scan : hs_database -> list byte -> Z -> list MatchEvent * Z)
    (inputData : list byte) (length : Z) (pattern : list byte) (st : State) :
  exists ret,
    hyperScanMethod hs_database hs_compile hs_alloc_scratch hs_scan
                    inputData length pattern st =
    Returned ret
      (fold_left (deliver pattern)
         (engine_events hs_compile hs_alloc_scratch hs_scan inputData length pattern)
         st).
Proof.
  unfold hyperScanMethod, engine_events.
  destruct (hs_compile pattern) as [db | ]; [ | exists (-1); reflexivity ].
  destruct (hs_alloc_scratch db); cbn [negb]; [ | exists 0; reflexivity ].
  destruct (hs_scan db inputData length) as [evs ret]. exists ret. reflexivity.
Qed.

(** X14. Given a pattern of 1 to 16 bytes and a readable file at least as
    long as the pattern, [main] runs all five scans without a fault and
    returns 0, whatever the engine does. The five lines carry, in this
    order: the number of positions holding the first byte of the pattern;
    the number of events of the engine; the number of occurrences of the
    pattern; that number converted to [char]; and 0. (The first three are
    [int] counters.) *)
Theorem main_reports_every_scan (HS_SUCCESS : Z) (hs_database : Type)
    (hs_compile : list byte -> option hs_database)
    (hs_alloc_scratch : hs_database -> bool)
    (hs_scan : hs_database -> list byte -> Z -> list MatchEvent * Z)
    (char_signed : bool) (fs : list byte -> FileInfo)
    (prog pattern inputFN inputData : list byte) (length : Z) (st : State) :
  f_exists (fs inputFN) = true ->
  f_readable (fs inputFN) = true ->
  readInputData (f_content (fs inputFN)) = Some (inputData, length) ->
  1 <= strlen pattern <= length ->
  strlen pattern <= 16 ->
  let status := if 0 =? HS_SUCCESS then "DONE"%string else "ERROR"%string in
  main HS_SUCCESS hs_database hs_compile hs_alloc_scratch hs_scan char_signed fs
       [prog; pattern; inputFN] st =
  Exit 0
    [ mkReport "allMemScan" status
        (int_wrap (Z.of_nat (List.length (first_byte_positions inputData pattern))));
      mkReport "hyperScan" status
        (int_wrap (Z.of_nat (List.length
           (engine_events hs_compile hs_alloc_scratch hs_scan
                          inputData length pattern))));
      mkReport "rookieScan" status
        (int_wrap (Z.of_nat (List.length (occurrences inputData pattern))));
      mkReport "myBMScanMethod" status
        (char_wrap char_signed
           (Z.of_nat (List.length (occurrences inputData pattern))));
      mkReport "myScan" status 0 ].
Proof.
  intros He Hre Hload HP H16 status.
  destruct (readInputData_buffer _ _ _ Hload) as [HB Hlen]. pose proof HB as [HL Hmax].
  assert (H0 : forall s, INT_MIN <= gsHint (set_gsHint 0 s) <= INT_MAX)
    by (intros s; simpl; unfold INT_MIN, INT_MAX; lia).
  rewrite (main_runs_table _ _ _ _ _ _ _ _ _ _ _ _ _ He Hre Hload).
  unfold testFuncArr. cbn [run_tests testFun testName].
  rewrite memScanMethod_spec by exact HL.
  set (st1 := report_all pattern (first_byte_positions inputData pattern)
                         (set_gsHint 0 st)).
  destruct (hyperScanMethod_events hs_database hs_compile hs_alloc_scratch hs_scan
              inputData length pattern (set_gsHint 0 st1)) as (ret & Ehs).
  cbv beta iota zeta. rewrite Ehs.
  set (st2 := fold_left (deliver pattern)
                (engine_events hs_compile hs_alloc_scratch hs_scan
                               inputData length pattern) (set_gsHint 0 st1)).
  cbv beta iota zeta. rewrite rookieScanMethod_spec by assumption.
  set (st3 := report_all pattern (occurrences inputData pattern)
                         (set_gsHint 0 (set_gsHint 0 st2))).
  destruct (myBMScanMethod_spec char_signed inputData length pattern
              (set_gsHint 0 st3) HB HP H16 (H0 st3)) as (st4 & Ebm & Hg4 & _).
  cbv beta iota zeta. rewrite Ebm. unfold paraScanMethod.
  cbv beta iota zeta. cbn [fst app]. fold status.
  assert (E1 : gsHint st1 =
               int_wrap (Z.of_nat (List.length (first_byte_positions inputData pattern))))
    by (unfold st1; rewrite report_all_gsHint by apply H0; reflexivity).
  assert (E2 : gsHint st2 =
               int_wrap (Z.of_nat (List.length
                 (engine_events hs_compile hs_alloc_scratch hs_scan
                                inputData length pattern))))
    by (unfold st2; rewrite deliver_gsHint by apply H0; reflexivity).
  assert (E3 : gsHint st3 =
               int_wrap (Z.of_nat (List.length (occurrences inputData pattern))))
    by (unfold st3; rewrite report_all_gsHint by apply H0; reflexivity).
  assert (E4 : gsHint st4 =
               char_wrap char_signed
                 (Z.of_nat (List.length (occurrences inputData pattern)))).
  { rewrite Hg4. simpl gsHint. apply int_wrap_small.
    pose proof (char_wrap_range char_signed
                  (Z.of_nat (List.length (occurrences inputData pattern)))).
    unfold INT_MIN, INT_MAX. lia. }
  rewrite E1, E2, E3, E4. reflexivity.
Qed.

(** "abababab" scanned for "aba" with an engine that reports two events. *)
Lemma main_reports_every_scan_witness :
  main 0 unit (fun _ => Some tt) (fun _ => true)
       (fun _ _ _ => ([mkEvent 0 0 3 0; mkEvent 0 0 5 0], 0)) true
       (one_file (list_byte_of_string "abababab"))
       [list_byte_of_string "simplegrep"; list_byte_of_string "aba";
        list_byte_of_string "input.txt"] (mkState 77 [mkEvent 1 1 1 1]) =
  Exit 0 [ mkReport "allMemScan" "DONE" 4; mkReport "hyperScan" "DONE" 2;
           mkReport "rookieScan" "DONE" 3; mkReport "myBMScanMethod" "DONE" 3;
           mkReport "myScan" "DONE" 0 ].
Proof.
  rewrite (main_reports_every_scan 0 unit (fun _ => Some tt) (fun _ => true)
             (fun _ _ _ => ([mkEvent 0 0 3 0; mkEvent 0 0 5 0], 0)) true
             (one_file (list_byte_of_string "abababab"))
             (list_byte_of_string "simplegrep") (list_byte_of_string "aba")
             (list_byte_of_string "input.txt")
             (list_byte_of_string "abababab") 8 (mkState 77 [mkEvent 1 1 1 1])).
  - reflexivity.
  - reflexivity.
  - reflexivity.
  - reflexivity.
  - change (strlen (list_byte_of_string "aba")) with 3. lia.
  - change (strlen (list_byte_of_string "aba")) with 3. lia.
Defined.

(** ** memScanMethod and its length argument *)

Lemma first_byte_at_firstn (inputData pattern : list byte) (n i : nat) :
  (i < n)%nat ->
  first_byte_at (firstn n inputData) pattern i = first_byte_at inputData pattern i.
Proof.
  intros Hi. unfold first_byte_at. rewrite nth_firstn.
  destruct (Nat.ltb_spec i n); [ reflexivity | lia ].
Qed.

Lemma mem_loop_runs_off (inputData pattern : list byte) (length : Z) :
  Z.of_nat (List.length inputData) < length ->
  forall n k st, (k + n = List.length inputData)%nat ->
    for_lt length (mem_body inputData pattern) (Z.of_nat k) st =
    Trap (BufferOverread (Z.of_nat (List.length inputData)))
         (report_all pattern
            (filter (first_byte_at inputData pattern) (seq k n)) st).
Proof.
  intros Hlen n. induction n as [ | n IH ]; intros k st Hk.
  - rewrite for_lt_unfold. destruct (Z.ltb_spec (Z.of_nat k) length); [ | lia ].
    unfold mem_body. rewrite buf_read_out by lia.
    replace k with (List.length inputData) by lia. reflexivity.
  - rewrite for_lt_unfold. destruct (Z.ltb_spec (Z.of_nat k) length); [ | lia ].
    rewrite mem_body_in by lia.
    replace (Z.of_nat k + 1) with (Z.of_nat (Datatypes.S k)) by lia.
    rewrite IH by lia. cbn [seq filter].
    destruct (first_byte_at inputData pattern k); reflexivity.
Qed.

(** X15. [memScanMethod] reads exactly the indices below [length]. Given a
    [length] of at most the size of the buffer it scans the first [length]
    bytes and ignores the rest; given a larger one it reports the positions
    inside the buffer and then reads [inputData] at the index just behind
    it. *)
Theorem memScan_respects_length (inputData : list byte) (length : Z)
    (pattern : list byte) (st : State) :
  0 <= length ->
  (length <= Z.of_nat (List.length inputData) ->
   memScanMethod inputData length pattern st =
   Returned 0 (report_all pattern
                 (first_byte_positions (firstn (Z.to_nat length) inputData) pattern)
                 st)) /\
  (Z.of_nat (List.length inputData) < length ->
   memScanMethod inputData length pattern st =
   Crashed (BufferOverread (Z.of_nat (List.length inputData)))
           (report_all pattern (first_byte_positions inputData pattern) st)).
Proof.
  intros H0. split; intros Hlen.
  - unfold memScanMethod. change 0 with (Z.of_nat 0) at 1.
    rewrite (for_lt_filter length (mem_body inputData pattern)
               (first_byte_at inputData pattern) (report_at pattern))
      with (n := Z.to_nat length).
    + unfold first_byte_positions, report_all.
      rewrite length_firstn, Nat.min_l by lia.
      rewrite (filter_ext_in (first_byte_at (firstn (Z.to_nat length) inputData) pattern)
                             (first_byte_at inputData pattern)); [ reflexivity | ].
      intros i Hi. apply in_seq in Hi. apply first_byte_at_firstn. lia.
    + intros k s Hk. apply mem_body_in. lia.
    + lia.
  - unfold memScanMethod. change 0 with (Z.of_nat 0) at 1.
    rewrite (mem_loop_runs_off inputData pattern length Hlen
               (List.length inputData) O st eq_refl).
    reflexivity.
Qed.

(** "abab" scanned for 'a' with a length of 2, and with a length of 6. *)
Lemma memScan_respects_length_witness :
  memScanMethod (list_byte_of_string "abab") 2 (list_byte_of_string "a")
                initial_state = Returned 0 (mkState 1 [event_at 0]) /\
  memScanMethod (list_byte_of_string "abab") 6 (list_byte_of_string "a")
                initial_state =
    Crashed (BufferOverread 4) (mkState 2 [event_at 0; event_at 2]).
Proof.
  split.
  - rewrite (proj1 (memScan_respects_length (list_byte_of_string "abab") 2
                      (list_byte_of_string "a") initial_state ltac:(lia)))
      by (simpl; lia).
    reflexivity.
  - rewrite (proj2 (memScan_respects_length (list_byte_of_string "abab") 6
                      (list_byte_of_string "a") initial_state ltac:(lia)))
      by (simpl; lia).
    reflexivity.
Defined.
